(** * A shallow embedding of the generation and grading pipeline of aksara-server

    Sources embedded here:
    - [src/src/helpers/similarity.js]      calculateCharacterMatchScore
    - [src/src/helpers/promptHelpers.js]   cleanLLMOutput, tryParseJSON
    - [src/src/helpers/errorHandling.js]   errorHandling
    - [src/src/services/aiService.js]      processImageToText, processAudioToText,
                                           processLLM, generateLLM, the Exercise
                                           schema
    - [src/src/models/questionBankModel.js] the QuestionBank schema
    - [src/unnamed/part_007]               storeExerciseQuiz (bank step),
                                           generate (filter step), answer, show,
                                           quiz, visibilty, insert

    JavaScript strings are modelled as lists of UTF-16 code units; the model
    covers the code units 0..255 (ASCII and Latin-1), one [ascii] each.
    The JSON values that [generate] and [storeExerciseQuiz] compare with
    [==], [===], [>=] and [<=] (the methods, the quantity) are modelled as
    JavaScript values [JSVal] with those operators' conversions; other
    numbers from JSON (similarity points, totals) are modelled as exact
    rationals [Q]. *)

From Stdlib Require Import Ascii String List ZArith QArith Qround Qabs Bool Lia.
Import ListNotations.

Open Scope bool_scope.

(* ================================================================= *)
(** ** JavaScript strings *)

Definition jsstr := list ascii.

(** A string literal as a JavaScript string. *)
Definition js (s : string) : jsstr := list_ascii_of_string s.

(** The double-quote and backslash code units. *)
Definition dquote : ascii := ascii_of_nat 34.
Definition backslash : ascii := ascii_of_nat 92.

(** Hexadecimal digits [0-9a-fA-F]. *)
Definition is_hex_unit (c : ascii) : bool :=
  let n := nat_of_ascii c in
  ((48 <=? n) && (n <=? 57)) || ((97 <=? n) && (n <=? 102)) || ((65 <=? n) && (n <=? 70)).

Fixpoint jsstr_eqb (a b : jsstr) : bool :=
  match a, b with
  | [], [] => true
  | x :: a', y :: b' => Ascii.eqb x y && jsstr_eqb a' b'
  | _, _ => false
  end.

(** Strict equality of two optional code units: [a[i] === b[i]], where an
    index past the end reads [undefined] ([None]). *)
Definition unit_eqb (x y : option ascii) : bool :=
  match x, y with
  | Some c, Some d => Ascii.eqb c d
  | None, None => true
  | _, _ => false
  end.

(** [String.prototype.toLowerCase] on one code unit of the Latin-1 range:
    A..Z and the Latin-1 capitals U+00C0..U+00DE (except U+00D7) move by 32. *)
Definition lower_unit (c : ascii) : ascii :=
  let n := nat_of_ascii c in
  if ((65 <=? n) && (n <=? 90)) || ((192 <=? n) && (n <=? 222) && negb (n =? 215))
  then ascii_of_nat (n + 32) else c.

Definition toLowerCase (s : jsstr) : jsstr := map lower_unit s.

(** JavaScript WhiteSpace and LineTerminator code units in the Latin-1 range:
    TAB, LF, VT, FF, CR, SPACE and NO-BREAK SPACE. *)
Definition is_js_space (c : ascii) : bool :=
  let n := nat_of_ascii c in
  ((9 <=? n) && (n <=? 13)) || (n =? 32) || (n =? 160).

(** Regex LineTerminator (what [.] does not match): LF and CR. *)
Definition is_line_terminator (c : ascii) : bool :=
  let n := nat_of_ascii c in (n =? 10) || (n =? 13).

Fixpoint trim_start (s : jsstr) : jsstr :=
  match s with
  | [] => []
  | c :: s' => if is_js_space c then trim_start s' else s
  end.

(** [String.prototype.trim]. *)
Definition trim (s : jsstr) : jsstr := rev (trim_start (rev (trim_start s))).

(** JavaScript truthiness of a string: [!s] holds exactly for [""]. *)
Definition js_falsy_str (s : jsstr) : bool :=
  match s with [] => true | _ => false end.

Fixpoint starts_with (p s : jsstr) : bool :=
  match p, s with
  | [], _ => true
  | c :: p', d :: s' => Ascii.eqb c d && starts_with p' s'
  | _ :: _, [] => false
  end.

Definition ends_with (p s : jsstr) : bool := starts_with (rev p) (rev s).

(** [s.replace(p, r)] with a string pattern: only the first occurrence. *)
Fixpoint replace_first (p r s : jsstr) : jsstr :=
  if starts_with p s then r ++ skipn (length p) s
  else match s with
       | [] => []
       | c :: s' => c :: replace_first p r s'
       end.

(** [s.split(sep)] for a one-unit separator. *)
Fixpoint split_on (sep : ascii) (s : jsstr) : list jsstr :=
  match s with
  | [] => [[]]
  | c :: s' =>
      if Ascii.eqb c sep then [] :: split_on sep s'
      else match split_on sep s' with
           | [] => [[c]]
           | w :: ws => (c :: w) :: ws
           end
  end.

(* ================================================================= *)
(** ** SimilarityScorer: [calculateCharacterMatchScore] (similarity.js) *)

(** The [for] loop of lines 20-26: positions [i .. i + fuel - 1]. *)
Fixpoint count_matches (a b : jsstr) (i fuel correctChars : nat) : nat :=
  match fuel with
  | O => correctChars
  | S fuel' =>
      count_matches a b (S i) fuel'
        (if unit_eqb (nth_error a i) (nth_error b i)
         then S correctChars else correctChars)
  end.

Definition calculateCharacterMatchScore (stringA stringB : jsstr) : Q :=
  if js_falsy_str stringA || js_falsy_str stringB then 0
  else
    let a := trim (toLowerCase stringA) in
    let b := trim (toLowerCase stringB) in
    let longerLength := Nat.max (length a) (length b) in
    if Nat.eqb longerLength 0 then 100
    else
      let correctChars := count_matches a b 0 longerLength 0 in
      (inject_Z (Z.of_nat correctChars) / inject_Z (Z.of_nat longerLength)) * 100.

(* ================================================================= *)
(** ** OutputSanitizer: [cleanLLMOutput] (promptHelpers.js) *)

(** [s.replace(/^p/g, "")]: the anchored pattern matches at most once. *)
Definition replace_leading (p s : jsstr) : jsstr :=
  if starts_with p s then skipn (length p) s else s.

(** [s.replace(/p$/g, "")]: only a match ending at the end of the input. *)
Definition replace_trailing (p s : jsstr) : jsstr :=
  if ends_with p s then firstn (length s - length p) s else s.

(** Canonicalisation of the [i] flag on one code unit (non-unicode mode):
    only the ASCII letters change case. *)
Definition ascii_fold (c : ascii) : ascii :=
  let n := nat_of_ascii c in
  if (65 <=? n) && (n <=? 90) then ascii_of_nat (n + 32) else c.

(** Case-insensitive match of a lower-case literal at the start of [s];
    returns the rest of the input. *)
Fixpoint ci_prefix (p s : jsstr) : option jsstr :=
  match p, s with
  | [], _ => Some s
  | c :: p', d :: s' => if Ascii.eqb c (ascii_fold d) then ci_prefix p' s' else None
  | _ :: _, [] => None
  end.

(** [.*?:]: the lazy star stops at the first [:]; [.] does not cross a line
    terminator.  Returns the input after the colon. *)
Fixpoint lazy_until_colon (s : jsstr) : option jsstr :=
  match s with
  | [] => None
  | c :: s' =>
      if Ascii.eqb c ":"%char then Some s'
      else if is_line_terminator c then None
      else lazy_until_colon s'
  end.

(** The match of [/^Here is.*?:/i], as the remaining input after it. *)
Definition preamble_rest (s : jsstr) : option jsstr :=
  match ci_prefix (js "here is") s with
  | Some r => lazy_until_colon r
  | None => None
  end.

Definition strip_preamble (s : jsstr) : jsstr :=
  match preamble_rest s with Some r => r | None => s end.

Definition fence : jsstr := js "```".
Definition fence_json : jsstr := js "```json".

(** The line feed, [\n]. *)
Definition lf : ascii := ascii_of_nat 10.

Definition cleanLLMOutput (text : jsstr) : jsstr :=
  let cleaned := trim text in
  let cleaned := replace_leading fence (replace_leading fence_json cleaned) in
  let cleaned := replace_trailing fence cleaned in
  let cleaned := strip_preamble cleaned in
  trim cleaned.

(* ================================================================= *)
(** ** [JSON.parse] (ECMA-404 grammar), used by [tryParseJSON] *)

Module JSONText.
#[local] Set Warnings "-register-all".
Inductive value :=
| JNull
| JBool (b : bool)
| JNumber (literal : jsstr)
| JString (s : jsstr)
| JArray (xs : list value)
| JObject (members : list (jsstr * value)).

Definition is_ws (c : ascii) : bool :=
  let n := nat_of_ascii c in (n =? 32) || (n =? 9) || (n =? 10) || (n =? 13).

Fixpoint skip_ws (s : jsstr) : jsstr :=
  match s with
  | c :: s' => if is_ws c then skip_ws s' else s
  | [] => []
  end.

Definition is_digit (c : ascii) : bool :=
  let n := nat_of_ascii c in (48 <=? n) && (n <=? 57).

Fixpoint digits (s : jsstr) : jsstr * jsstr :=
  match s with
  | c :: s' => if is_digit c then let '(d, r) := digits s' in (c :: d, r) else ([], s)
  | [] => ([], [])
  end.

(** [-? (0 | [1-9][0-9]* ) (. [0-9]+)? ([eE] [+-]? [0-9]+)?] *)
Definition number (s : jsstr) : option (jsstr * jsstr) :=
  let '(sign, s1) := match s with "-"%char :: r => (["-"%char], r) | _ => ([], s) end in
  let '(int, s2) := digits s1 in
  match int with
  | [] => None
  | c :: rest =>
    if Ascii.eqb c "0"%char && negb (match rest with [] => true | _ => false end) then None
    else
      let frac := match s2 with
                  | "."%char :: r => let '(d, r') := digits r in
                                     match d with [] => None | _ => Some ("."%char :: d, r') end
                  | _ => Some ([], s2)
                  end in
      match frac with
      | None => None
      | Some (f, s3) =>
        let ex := match s3 with
                  | e :: r =>
                    if Ascii.eqb e "e"%char || Ascii.eqb e "E"%char then
                      let '(sg, r1) := match r with
                                       | "+"%char :: r' => (["+"%char], r')
                                       | "-"%char :: r' => (["-"%char], r')
                                       | _ => ([], r) end in
                      let '(d, r2) := digits r1 in
                      match d with [] => None | _ => Some (e :: sg ++ d, r2) end
                    else Some ([], s3)
                  | [] => Some ([], s3)
                  end in
        match ex with
        | None => None
        | Some (x, s4) => Some (sign ++ int ++ f ++ x, s4)
        end
    end
  end.

(** The body of a string literal, after the opening quote. *)
Fixpoint string_body (s : jsstr) : option (jsstr * jsstr) :=
  match s with
  | [] => None
  | c :: s' =>
    if Ascii.eqb c dquote then Some ([], s')
    else if Ascii.eqb c backslash then
      match s' with
      | e :: s'' =>
        if existsb (Ascii.eqb e) [dquote; backslash; "/"%char; "b"%char; "f"%char;
                                  "n"%char; "r"%char; "t"%char]
        then match string_body s'' with
             | Some (b, r) => Some (backslash :: e :: b, r)
             | None => None
             end
        else if Ascii.eqb e "u"%char then
          match s'' with
          | h1 :: h2 :: h3 :: h4 :: s3 =>
            if forallb is_hex_unit [h1; h2; h3; h4]
            then match string_body s3 with
                 | Some (b, r) => Some ([backslash; e; h1; h2; h3; h4] ++ b, r)
                 | None => None
                 end
            else None
          | _ => None
          end
        else None
      | [] => None
      end
    else if (nat_of_ascii c <? 32) then None
    else match string_body s' with
         | Some (b, r) => Some (c :: b, r)
         | None => None
         end
  end.

Fixpoint value_of (fuel : nat) (s : jsstr) : option (value * jsstr) :=
  match fuel with
  | O => None
  | S fuel' =>
    match skip_ws s with
    | [] => None
    | (c :: r) as t =>
      if starts_with (js "null") t then Some (JNull, skipn 4 t)
      else if starts_with (js "true") t then Some (JBool true, skipn 4 t)
      else if starts_with (js "false") t then Some (JBool false, skipn 5 t)
      else if Ascii.eqb c dquote then
        match string_body r with Some (b, r') => Some (JString b, r') | None => None end
      else if Ascii.eqb c "["%char then
        match skip_ws r with
        | "]"%char :: r' => Some (JArray [], r')
        | _ => elements fuel' r []
        end
      else if Ascii.eqb c "{"%char then
        match skip_ws r with
        | "}"%char :: r' => Some (JObject [], r')
        | _ => members fuel' r []
        end
      else match number t with Some (n, r') => Some (JNumber n, r') | None => None end
    end
  end
with elements (fuel : nat) (s : jsstr) (acc : list value) : option (value * jsstr) :=
  match fuel with
  | O => None
  | S fuel' =>
    match value_of fuel' s with
    | None => None
    | Some (v, r) =>
      match skip_ws r with
      | ","%char :: r' => elements fuel' r' (acc ++ [v])
      | "]"%char :: r' => Some (JArray (acc ++ [v]), r')
      | _ => None
      end
    end
  end
with members (fuel : nat) (s : jsstr) (acc : list (jsstr * value)) : option (value * jsstr) :=
  match fuel with
  | O => None
  | S fuel' =>
    match skip_ws s with
    | c :: r =>
      if Ascii.eqb c dquote then
        match string_body r with
        | Some (k, r1) =>
          match skip_ws r1 with
          | ":"%char :: r2 =>
            match value_of fuel' r2 with
            | Some (v, r3) =>
              match skip_ws r3 with
              | ","%char :: r4 => members fuel' r4 (acc ++ [(k, v)])
              | "}"%char :: r4 => Some (JObject (acc ++ [(k, v)]), r4)
              | _ => None
              end
            | None => None
            end
          | _ => None
          end
        | None => None
        end
      else None
    | [] => None
    end
  end.

(** [JSON.parse(text)]: [None] when it throws a SyntaxError. *)
Definition parse (text : jsstr) : option value :=
  match value_of (S (length text)) text with
  | Some (v, rest) => match skip_ws rest with [] => Some v | _ => None end
  | None => None
  end.
End JSONText.

(* ================================================================= *)
(** ** GenerationClient: [processLLM] and [generateLLM] (aiService.js) *)

(** What one call of [processLLM] yields: the axios call rejects
    ([ReplyError], rethrown), or it resolves with [response.data.response],
    which is [undefined] ([None]) when the body has no such field. *)
Inductive LLMReply :=
| ReplyError
| ReplyOk (response : option jsstr).

(** The outcome of [generateLLM]: the value it returns ([GenReturned v],
    [v = None] being [null]), or the final
    [throw new Error("Model failed to produce valid JSON after ...")]. *)
Inductive GenOutcome (json : Type) :=
| GenReturned (v : option json)
| GenExhausted.
Arguments GenReturned {json} v.
Arguments GenExhausted {json}.

Section Generation.
(** JSON values and [JSON.parse]: [None] when it throws a SyntaxError. *)
Variable json : Type.
Variable JSON_parse : jsstr -> option json.

(** [tryParseJSON]: the exception is turned into [null]. *)
Definition tryParseJSON (text : jsstr) : option json := JSON_parse text.

(** The [for] loop of [generateLLM]: [i] is the attempt index, and
    [endpoint i] the reply of the model endpoint to call number [i].
    Returns the outcome and the number of endpoint calls made. *)
Fixpoint generate_loop (endpoint : nat -> LLMReply) (i fuel : nat)
  : GenOutcome json * nat :=
  match fuel with
  | O => (GenExhausted, i)
  | S fuel' =>
      match endpoint i with
      | ReplyError => generate_loop endpoint (S i) fuel'
      | ReplyOk None =>
          (* [cleanLLMOutput(undefined)]: [text.trim] throws a TypeError,
             caught by the loop *)
          generate_loop endpoint (S i) fuel'
      | ReplyOk (Some raw) =>
          let cleaned := cleanLLMOutput raw in
          let parsed := tryParseJSON cleaned in
          (GenReturned parsed, S i)
      end
  end.

Definition generateLLM (endpoint : nat -> LLMReply) (retries : nat)
  : GenOutcome json * nat :=
  generate_loop endpoint 0 retries.

(** The default of the [retries] parameter. *)
Definition generateLLM_default (endpoint : nat -> LLMReply) :=
  generateLLM endpoint 3.
End Generation.

(* ================================================================= *)
(** ** The [md5] package on strings: UTF-8 encoding, then MD5 (RFC 1321),
    as a lower-case hexadecimal string *)

Module MD5.
Open Scope Z_scope.

Definition mask32 : Z := 4294967295.
Definition w32 (x : Z) : Z := Z.land x mask32.
Definition not32 (x : Z) : Z := Z.lxor x mask32.
Definition rotl32 (x c : Z) : Z :=
  w32 (Z.lor (Z.shiftl x c) (Z.shiftr (w32 x) (32 - c))).

(** [K[i] = floor(|sin(i + 1)| * 2^32)]. *)
Definition K : list Z :=
  [3614090360; 3905402710; 606105819; 3250441966; 4118548399; 1200080426;
   2821735955; 4249261313; 1770035416; 2336552879; 4294925233; 2304563134;
   1804603682; 4254626195; 2792965006; 1236535329; 4129170786; 3225465664;
   643717713; 3921069994; 3593408605; 38016083; 3634488961; 3889429448;
   568446438; 3275163606; 4107603335; 1163531501; 2850285829; 4243563512;
   1735328473; 2368359562; 4294588738; 2272392833; 1839030562; 4259657740;
   2763975236; 1272893353; 4139469664; 3200236656; 681279174; 3936430074;
   3572445317; 76029189; 3654602809; 3873151461; 530742520; 3299628645;
   4096336452; 1126891415; 2878612391; 4237533241; 1700485571; 2399980690;
   4293915773; 2240044497; 1873313359; 4264355552; 2734768916; 1309151649;
   4149444226; 3174756917; 718787259; 3951481745].

Definition shifts : list Z :=
  [7; 12; 17; 22; 7; 12; 17; 22; 7; 12; 17; 22; 7; 12; 17; 22;
   5; 9; 14; 20; 5; 9; 14; 20; 5; 9; 14; 20; 5; 9; 14; 20;
   4; 11; 16; 23; 4; 11; 16; 23; 4; 11; 16; 23; 4; 11; 16; 23;
   6; 10; 15; 21; 6; 10; 15; 21; 6; 10; 15; 21; 6; 10; 15; 21].

Definition state := (Z * Z * Z * Z)%type.

Definition init : state := (1732584193, 4023233417, 2562383102, 271733878).

(** One of the 64 operations on a block [M] of sixteen words. *)
Definition step (M : list Z) (st : state) (i : nat) : state :=
  let '(a, b, c, d) := st in
  let '(f, g) :=
    if (i <? 16)%nat then (Z.lor (Z.land b c) (Z.land (not32 b) d), i)
    else if (i <? 32)%nat then (Z.lor (Z.land d b) (Z.land (not32 d) c), (5 * i + 1) mod 16)%nat
    else if (i <? 48)%nat then (Z.lxor b (Z.lxor c d), (3 * i + 5) mod 16)%nat
    else (Z.lxor c (Z.lor b (not32 d)), (7 * i) mod 16)%nat in
  let f := w32 (f + a + nth i K 0 + nth g M 0) in
  (d, w32 (b + rotl32 f (nth i shifts 0)), b, c).

Definition block (st : state) (M : list Z) : state :=
  let '(a, b, c, d) := st in
  let '(a', b', c', d') := fold_left (step M) (seq 0 64) st in
  (w32 (a + a'), w32 (b + b'), w32 (c + c'), w32 (d + d')).

(** Little-endian words of a byte list (groups of four). *)
Fixpoint words (fuel : nat) (bs : list Z) : list Z :=
  match fuel, bs with
  | S fuel', b0 :: b1 :: b2 :: b3 :: rest =>
      (b0 + 256 * b1 + 65536 * b2 + 16777216 * b3) :: words fuel' rest
  | _, _ => []
  end.

Fixpoint blocks (fuel : nat) (ws : list Z) : list (list Z) :=
  match fuel, ws with
  | S fuel', _ :: _ => firstn 16 ws :: blocks fuel' (skipn 16 ws)
  | _, _ => []
  end.

Definition le_bytes (n : nat) (x : Z) : list Z :=
  map (fun k => Z.land (Z.shiftr x (8 * Z.of_nat k)) 255) (seq 0 n).

(** Padding: [0x80], zeros up to 56 mod 64, the bit length on 64 bits. *)
Definition pad (bs : list Z) : list Z :=
  let len := length bs in
  let r := (len mod 64)%nat in
  let zeros := if (r <=? 55)%nat then (55 - r)%nat else (119 - r)%nat in
  bs ++ [128] ++ repeat 0 zeros ++ le_bytes 8 (8 * Z.of_nat len).

Definition digest (bs : list Z) : list Z :=
  let p := pad bs in
  let ws := words (length p) p in
  let '(a, b, c, d) := fold_left block (blocks (length ws) ws) init in
  le_bytes 4 a ++ le_bytes 4 b ++ le_bytes 4 c ++ le_bytes 4 d.

Definition hex_unit (n : Z) : ascii :=
  if n <? 10 then ascii_of_N (Z.to_N (48 + n)) else ascii_of_N (Z.to_N (87 + n)).

Definition to_hex (bs : list Z) : jsstr :=
  flat_map (fun b => [hex_unit (b / 16); hex_unit (b mod 16)]) bs.

(** UTF-8 encoding of code units 0..255 (what [charenc.utf8] does). *)
Definition utf8 (s : jsstr) : list Z :=
  flat_map (fun c => let n := Z.of_nat (nat_of_ascii c) in
                     if n <? 128 then [n] else [192 + n / 64; 128 + n mod 64]) s.
End MD5.

(** [md5(message)] on a string. *)
Definition md5 (message : jsstr) : jsstr := MD5.to_hex (MD5.digest (MD5.utf8 message)).

(* ================================================================= *)
(** ** [JSON.stringify] on the object [{ question: qVal, key: k }] *)

(** The escape of one code unit inside a JSON string literal. *)
Definition json_escape_unit (c : ascii) : jsstr :=
  let n := nat_of_ascii c in
  if n =? 34 then [backslash; dquote]
  else if n =? 92 then [backslash; backslash]
  else if n =? 8 then [backslash; "b"%char]
  else if n =? 9 then [backslash; "t"%char]
  else if n =? 10 then [backslash; "n"%char]
  else if n =? 12 then [backslash; "f"%char]
  else if n =? 13 then [backslash; "r"%char]
  else if n <? 32 then
    [backslash; "u"%char; "0"%char; "0"%char;
     MD5.hex_unit (Z.of_nat n / 16); MD5.hex_unit (Z.of_nat n mod 16)]
  else [c].

Definition json_quote (s : jsstr) : jsstr :=
  dquote :: flat_map json_escape_unit s ++ [dquote].

(** [JSON.stringify({ question: qVal, key: k })]; [qVal] may be [null]. *)
Definition stringify_question_key (qVal : option jsstr) (k : jsstr) : jsstr :=
  ["{"%char] ++ json_quote (js "question") ++ [":"%char]
  ++ match qVal with Some v => json_quote v | None => js "null" end
  ++ [","%char] ++ json_quote (js "key") ++ [":"%char] ++ json_quote k
  ++ ["}"%char].

(* ================================================================= *)
(** ** JavaScript values parsed from JSON, and the operators applied to them *)

(** A value or a thrown error with its message. *)
Inductive Throws (A : Type) :=
| Ok (a : A)
| Throw (message : jsstr).
Arguments Ok {A} a.
Arguments Throw {A} message.

(** A JavaScript number.  A finite double is kept as its exact rational
    value; negative zero is not told apart from zero, which none of the
    operators below can observe. *)
Inductive JSNumber :=
| NumNaN
| NumInf (negative : bool)
| NumFin (x : Q).

(** [2 ^ e] and [10 ^ e] for an integer exponent [e]. *)
Definition pow2 (e : Z) : Q :=
  if (0 <=? e)%Z then inject_Z (2 ^ e) else 1 # Z.to_pos (2 ^ (- e)).

Definition pow10 (e : Z) : Q :=
  if (0 <=? e)%Z then inject_Z (10 ^ e) else 1 # Z.to_pos (10 ^ (- e)).

(** [a / b] rounded to the nearest integer, ties to even ([0 <= a], [0 < b]). *)
Definition round_half_even (a b : Z) : Z :=
  let q := (a / b)%Z in
  match Z.compare (2 * (a mod b)) b with
  | Lt => q
  | Gt => q + 1
  | Eq => if Z.even q then q else q + 1
  end.

(** [floor (log2 (n / d))] for [0 < n], [0 < d]. *)
Definition floor_log2 (n d : Z) : Z :=
  let e := (Z.log2 n - Z.log2 d)%Z in
  if (0 <=? e)%Z then (if (d * 2 ^ e <=? n)%Z then e else e - 1)
  else (if (d <=? n * 2 ^ (- e))%Z then e else e - 1).

(** The double nearest to a rational, ties to even: 53 significant bits,
    subnormal spacing [2 ^ -1074], and an infinity once the rounded
    magnitude reaches [2 ^ 1024]. *)
Definition round_double (x : Q) : JSNumber :=
  let n := Z.abs (Qnum x) in
  let d := Zpos (Qden x) in
  if (n =? 0)%Z then NumFin 0 else
  let e := Z.max (floor_log2 n d - 52) (-1074) in
  let m := if (0 <=? e)%Z then round_half_even n (d * 2 ^ e)
           else round_half_even (n * 2 ^ (- e)) d in
  let negative := (Qnum x <? 0)%Z in
  if (0 <=? e)%Z && (2 ^ (1024 - e) <=? m)%Z then NumInf negative
  else NumFin (Qred (inject_Z (if negative then - m else m) * pow2 e)).

(** The decimal digits of a non-negative integer. *)
Fixpoint Z_digits_fuel (fuel : nat) (m : Z) (acc : jsstr) : jsstr :=
  match fuel with
  | O => acc
  | S f =>
      let acc' := ascii_of_nat (48 + Z.to_nat (m mod 10)) :: acc in
      if (m <? 10)%Z then acc' else Z_digits_fuel f (m / 10) acc'
  end.

Definition Z_to_decimal (m : Z) : jsstr := Z_digits_fuel (Z.to_nat (Z.log2 m + 1)) m [].

Definition zdigits (m : Z) : Z := Z.of_nat (length (Z_to_decimal m)).

(** [Ascii.eqb] against a one-unit literal. *)
Definition is_unit (c : ascii) (s : string) : bool :=
  match s with String d _ => Ascii.eqb c d | EmptyString => false end.

(** A run of decimal digits and what follows it. *)
Fixpoint span_digits (s : jsstr) : jsstr * jsstr :=
  match s with
  | c :: s' =>
      if JSONText.is_digit c then let '(ds, r) := span_digits s' in (c :: ds, r)
      else ([], s)
  | [] => ([], [])
  end.

Definition digits_Z (ds : jsstr) : Z :=
  fold_left (fun acc c => acc * 10 + (Z.of_nat (nat_of_ascii c) - 48))%Z ds 0%Z.

(** An optional ExponentPart [[eE][+-]?DecimalDigits] ending the text. *)
Definition parse_exponent (s : jsstr) : option Z :=
  match s with
  | [] => Some 0%Z
  | c :: r =>
      if is_unit c "e" || is_unit c "E" then
        let '(sign, r') :=
          match r with
          | d :: r'' => if is_unit d "+" then (1%Z, r'')
                        else if is_unit d "-" then ((-1)%Z, r'') else (1%Z, r)
          | [] => (1%Z, r)
          end in
        let '(ds, rest) := span_digits r' in
        if negb (js_falsy_str ds) && js_falsy_str rest
        then Some (sign * digits_Z ds)%Z else None
      else None
  end.

(** StrUnsignedDecimalLiteral other than [Infinity]: [Some (m, x)] for the
    value [m * 10 ^ x]. *)
Definition parse_unsigned_decimal (s : jsstr) : option (Z * Z) :=
  let '(ip, r1) := span_digits s in
  let '(fp, r2) :=
    match r1 with
    | c :: r => if is_unit c "." then span_digits r else ([], r1)
    | [] => ([], [])
    end in
  if js_falsy_str ip && js_falsy_str fp then None
  else match parse_exponent r2 with
       | Some x => Some (digits_Z (ip ++ fp), x - Z.of_nat (length fp))%Z
       | None => None
       end.

(** The double for [m * 10 ^ x] ([0 <= m]).  With [k] the digits of [m],
    the value lies in [[10 ^ (k - 1 + x), 10 ^ (k + x))]: from [10 ^ 309] on
    it rounds to an infinity, below [10 ^ -324] (under half the least
    subnormal) to zero, so the exact value is only formed in between. *)
Definition decimal_to_number (m x : Z) : JSNumber :=
  if (m =? 0)%Z then NumFin 0 else
  let k := zdigits m in
  if (309 <=? k - 1 + x)%Z then NumInf false
  else if (k + x <=? -324)%Z then NumFin 0
  else round_double (inject_Z m * pow10 x).

Definition unsigned_to_number (s : jsstr) : option JSNumber :=
  if jsstr_eqb s (js "Infinity") then Some (NumInf false)
  else match parse_unsigned_decimal s with
       | Some (m, x) => Some (decimal_to_number m x)
       | None => None
       end.

Definition neg_number (n : JSNumber) : JSNumber :=
  match n with
  | NumNaN => NumNaN
  | NumInf b => NumInf (negb b)
  | NumFin x => NumFin (- x)
  end.

(** The value of a letter or digit as a digit (36 for anything else). *)
Definition digit_value (c : ascii) : Z :=
  let n := Z.of_nat (nat_of_ascii c) in
  if (48 <=? n)%Z && (n <=? 57)%Z then (n - 48)%Z
  else if (97 <=? n)%Z && (n <=? 122)%Z then (n - 87)%Z
  else if (65 <=? n)%Z && (n <=? 90)%Z then (n - 55)%Z
  else 36%Z.

Fixpoint radix_digits (r acc : Z) (s : jsstr) : option Z :=
  match s with
  | [] => Some acc
  | c :: s' => if (digit_value c <? r)%Z then radix_digits r (acc * r + digit_value c)%Z s'
               else None
  end.

(** NonDecimalIntegerLiteral: [0x], [0o] or [0b] and at least one digit. *)
Definition non_decimal (s : jsstr) : option JSNumber :=
  match s with
  | z :: p :: ((_ :: _) as ds) =>
      let r := if is_unit p "x" || is_unit p "X" then 16%Z
               else if is_unit p "o" || is_unit p "O" then 8%Z
               else if is_unit p "b" || is_unit p "B" then 2%Z else 0%Z in
      if is_unit z "0" && negb (r =? 0)%Z then
        match radix_digits r 0 ds with
        | Some v => Some (round_double (inject_Z v))
        | None => None
        end
      else None
  | _ => None
  end.

(** StringToNumber: the text without surrounding white space must be
    empty (0), a NonDecimalIntegerLiteral, or an optionally signed
    [Infinity] or decimal literal; anything else is NaN. *)
Definition StringToNumber (str : jsstr) : JSNumber :=
  let s := trim str in
  match s with
  | [] => NumFin 0
  | c :: r =>
      match non_decimal s with
      | Some v => v
      | None =>
          let res := if is_unit c "+" then unsigned_to_number r
                     else if is_unit c "-" then option_map neg_number (unsigned_to_number r)
                     else unsigned_to_number s in
          match res with Some v => v | None => NumNaN end
      end
  end.

(** [Number::toString] of a positive double [v]: the fewest digits [s]
    ([k] of them) with an exponent [n] such that [s * 10 ^ (n - k)] rounds
    to [v]; among several, the closest to [v], then the even one. *)
Definition floor_log10 (v : Q) : Z :=
  let p := (zdigits (Qnum v) - zdigits (Zpos (Qden v)))%Z in
  if Qle_bool (pow10 p) v then p else (p - 1)%Z.

Definition same_double (a v : Q) : bool :=
  match round_double a with NumFin r => Qeq_bool r v | _ => false end.

Definition sd_candidates (v : Q) (k : Z) : list (Z * Z) :=
  let n0 := (floor_log10 v + 1)%Z in
  filter (fun c => (10 ^ (k - 1) <=? fst c)%Z && (fst c <? 10 ^ k)%Z
                   && same_double (inject_Z (fst c) * pow10 (snd c - k)) v)
    (flat_map (fun n => let f := Qfloor (v / pow10 (n - k)) in [(f, n); (f + 1, n)]%Z)
              [n0; (n0 + 1)%Z]).

Definition sd_dist (v : Q) (k : Z) (c : Z * Z) : Q :=
  Qabs (inject_Z (fst c) * pow10 (snd c - k) - v).

Definition sd_pick (v : Q) (k : Z) (c d : Z * Z) : Z * Z :=
  match Qcompare (sd_dist v k c) (sd_dist v k d) with
  | Lt => c
  | Gt => d
  | Eq => if Z.even (fst c) then c else d
  end.

(** [(s, n, k)]; the last case is never reached for a double, whose 17
    significant digits always round back to it. *)
Fixpoint shortest_digits (v : Q) (k : Z) (fuel : nat) : Z * Z * Z :=
  match fuel with
  | O => let n0 := (floor_log10 v + 1)%Z in (Qfloor (v / pow10 (n0 - 17)), n0, 17%Z)
  | S f =>
      match sd_candidates v k with
      | c :: cs => let '(s, n) := fold_left (sd_pick v k) cs c in (s, n, k)
      | [] => shortest_digits v (k + 1) f
      end
  end.

(** Steps 6 to 12 of [Number::toString] for the digits [ds] and exponent [n]. *)
Definition format_decimal (ds : jsstr) (n : Z) : jsstr :=
  let k := Z.of_nat (length ds) in
  if (k <=? n)%Z && (n <=? 21)%Z then ds ++ repeat "0"%char (Z.to_nat (n - k))
  else if (0 <? n)%Z && (n <=? 21)%Z
  then firstn (Z.to_nat n) ds ++ "."%char :: skipn (Z.to_nat n) ds
  else if (-6 <? n)%Z && (n <=? 0)%Z
  then js "0." ++ repeat "0"%char (Z.to_nat (- n)) ++ ds
  else
    let e := (n - 1)%Z in
    let ex := "e"%char :: (if (e <? 0)%Z then "-"%char else "+"%char)
              :: Z_to_decimal (Z.abs e) in
    match ds with
    | d :: (_ :: _) as rest => d :: "."%char :: rest ++ ex
    | _ => ds ++ ex
    end.

Definition Number_toString (x : JSNumber) : jsstr :=
  match x with
  | NumNaN => js "NaN"
  | NumInf false => js "Infinity"
  | NumInf true => js "-Infinity"
  | NumFin q =>
      let pos v := let '(s, n, _) := shortest_digits v 1 17 in
                   format_decimal (Z_to_decimal s) n in
      if Qeq_bool q 0 then js "0"
      else if negb (Qle_bool 0 q) then "-"%char :: pos (- q) else pos q
  end.

(** A JSON value as JavaScript holds it after [JSON.parse] or
    [express.json()]; a missing property reads as [JSUndefined].  An object
    keeps its members in order, duplicates included. *)
#[warnings="-register-all"]
Inductive JSVal :=
| JSUndefined
| JSNull
| JSBool (b : bool)
| JSNum (n : JSNumber)
| JSStr (s : jsstr)
| JSArr (elems : list JSVal)
| JSObj (members : list (jsstr * JSVal)).

Definition has_own (k : jsstr) (members : list (jsstr * JSVal)) : bool :=
  existsb (fun m => jsstr_eqb (fst m) k) members.

Definition to_primitive_error : jsstr := js "Cannot convert object to primitive value".

(** ToString of a primitive. *)
Definition prim_to_string (v : JSVal) : jsstr :=
  match v with
  | JSUndefined => js "undefined"
  | JSNull => js "null"
  | JSBool true => js "true"
  | JSBool false => js "false"
  | JSNum n => Number_toString n
  | JSStr s => s
  | JSArr _ | JSObj _ => js "[object Object]"
  end.

(** ToString of an element inside [Array.prototype.join] (what an array's
    [toString] returns): [undefined] and [null] give the empty string, an
    array is joined with [","].  A plain object gives "[object Object]"
    through [Object.prototype.toString]; an own [toString] member from JSON
    is not callable and neither is a primitive-returning [valueOf], so the
    conversion throws a TypeError. *)
Fixpoint join_elem (v : JSVal) : Throws jsstr :=
  match v with
  | JSUndefined | JSNull => Ok []
  | JSArr elems =>
      (fix join (first : bool) (l : list JSVal) : Throws jsstr :=
         match l with
         | [] => Ok []
         | x :: l' =>
             match join_elem x with
             | Throw m => Throw m
             | Ok s =>
                 match join false l' with
                 | Throw m => Throw m
                 | Ok r => Ok ((if first then [] else [","%char]) ++ s ++ r)
                 end
             end
         end) true elems
  | JSObj ms =>
      if has_own (js "toString") ms then Throw to_primitive_error
      else Ok (js "[object Object]")
  | _ => Ok (prim_to_string v)
  end.

(** ToPrimitive (either hint: [valueOf] of an object returns the object). *)
Definition to_primitive (v : JSVal) : Throws JSVal :=
  match v with
  | JSArr _ | JSObj _ =>
      match join_elem v with Ok s => Ok (JSStr s) | Throw m => Throw m end
  | _ => Ok v
  end.

(** ToNumber of a primitive. *)
Definition to_number_prim (v : JSVal) : JSNumber :=
  match v with
  | JSUndefined => NumNaN
  | JSNull => NumFin 0
  | JSBool b => NumFin (if b then 1 else 0)
  | JSNum n => n
  | JSStr s => StringToNumber s
  | JSArr _ | JSObj _ => NumNaN
  end.

Definition to_number (v : JSVal) : Throws JSNumber :=
  match to_primitive v with Ok p => Ok (to_number_prim p) | Throw m => Throw m end.

(** Number equality: NaN equals nothing. *)
Definition num_eqb (a b : JSNumber) : bool :=
  match a, b with
  | NumFin x, NumFin y => Qeq_bool x y
  | NumInf s, NumInf t => Bool.eqb s t
  | _, _ => false
  end.

Definition is_object (v : JSVal) : bool :=
  match v with JSArr _ | JSObj _ => true | _ => false end.

Definition is_nullish (v : JSVal) : bool :=
  match v with JSUndefined | JSNull => true | _ => false end.

(** IsLooselyEqual on two primitives: [null] and [undefined] equal each
    other only; values of one type compare directly; a mix of numbers,
    strings and booleans compares as numbers. *)
Definition loose_eq_prim (x y : JSVal) : bool :=
  match x, y with
  | (JSUndefined | JSNull), (JSUndefined | JSNull) => true
  | (JSUndefined | JSNull), _ | _, (JSUndefined | JSNull) => false
  | JSStr a, JSStr b => jsstr_eqb a b
  | JSBool a, JSBool b => Bool.eqb a b
  | _, _ => num_eqb (to_number_prim x) (to_number_prim y)
  end.

(** [x == y]: two objects are equal only when identical, which two values
    from different JSON texts never are; an object against [null] or
    [undefined] is unequal; against another primitive it is converted with
    ToPrimitive first. *)
Definition loose_eq (x y : JSVal) : Throws bool :=
  if is_object x && is_object y then Ok false
  else if is_object x then
    (if is_nullish y then Ok false
     else match to_primitive x with Ok p => Ok (loose_eq_prim p y) | Throw m => Throw m end)
  else if is_object y then
    (if is_nullish x then Ok false
     else match to_primitive y with Ok p => Ok (loose_eq_prim x p) | Throw m => Throw m end)
  else Ok (loose_eq_prim x y).

(** [x === c] for a number literal [c]. *)
Definition strict_eq_num (x : JSVal) (c : Q) : bool :=
  match x with JSNum n => num_eqb n (NumFin c) | _ => false end.

(** [v >= c] and [v <= c] for a number literal [c]: ToPrimitive then
    ToNumber of [v]; a comparison involving NaN is false. *)
Definition js_ge_const (v : JSVal) (c : Q) : Throws bool :=
  match to_number v with
  | Throw m => Throw m
  | Ok NumNaN => Ok false
  | Ok (NumInf neg) => Ok (negb neg)
  | Ok (NumFin x) => Ok (Qle_bool c x)
  end.

Definition js_le_const (v : JSVal) (c : Q) : Throws bool :=
  match to_number v with
  | Throw m => Throw m
  | Ok NumNaN => Ok false
  | Ok (NumInf neg) => Ok neg
  | Ok (NumFin x) => Ok (Qle_bool x c)
  end.

(** Truncation toward zero (ToIntegerOrInfinity on a finite number). *)
Definition trunc_Q (x : Q) : Z := if Qle_bool 0 x then Qfloor x else Qceiling x.

(* ================================================================= *)
(** ** QuestionBank and the bank step of [storeExerciseQuiz] *)

(** [/^#([0-9a-fA-F]{8}|[0-9a-fA-F]{6}|[0-9a-fA-F]{4}|[0-9a-fA-F]{3})$/]. *)
Definition isHexColor (s : jsstr) : bool :=
  match s with
  | c :: h =>
      Ascii.eqb c "#"%char && forallb is_hex_unit h
      && existsb (Nat.eqb (length h)) [8; 6; 4; 3]%nat
  | [] => false
  end.

(** [/^data:.+;base64,/]: after [data:], at least one unit other than a line
    terminator, then [;base64,].  [seen] records that [.+] consumed a unit. *)
Fixpoint base64_tail (seen : bool) (r : jsstr) : bool :=
  (seen && starts_with (js ";base64,") r)
  || match r with
     | [] => false
     | c :: r' => negb (is_line_terminator c) && base64_tail true r'
     end.

Definition isBase64DataURL (s : jsstr) : bool :=
  starts_with (js "data:") s && base64_tail false (skipn 5 s).

(** The question types stored by [storeExerciseQuiz]. *)
Inductive QType := QText | QHex | QPath.

Definition qtype_tag (t : QType) : jsstr :=
  match t with QText => js "text" | QHex => js "hex" | QPath => js "path" end.

(** One element of [req.body.questions]: [method] as the client sent it,
    [question] and [key] strings. *)
Record StoreItem := {
  si_method : JSVal;
  si_question : jsstr;
  si_key : jsstr
}.

(** A QuestionBank document (questionBankModel.js). *)
Record BankEntry := {
  be_level : option Q;
  be_method : JSVal;
  be_code : jsstr;
  be_key : jsstr;
  be_qtype : jsstr;
  be_qvalue : option jsstr
}.

(** The schema's [required] validators, run by [save()]: a required number
    must be present, a required string must be present and non-empty.  The
    [Number] cast of [method] is not modelled: [storeExerciseQuiz] never
    sets [level], so validation fails whatever that cast gives. *)
Definition bank_validate (e : BankEntry) : bool :=
  match be_level e, be_qvalue e with
  | Some _, Some v =>
      negb (js_falsy_str (be_code e)) && negb (js_falsy_str (be_key e))
      && negb (js_falsy_str (be_qtype e)) && negb (js_falsy_str v)
  | _, _ => false
  end.

Definition Bank := list BankEntry.

(** [questionBankModel.findOne({ code })]. *)
Definition bank_findOne (code : jsstr) (bank : Bank) : option BankEntry :=
  find (fun e => jsstr_eqb (be_code e) code) bank.

(** [new questionBankModel(e).save()]: [None] when validation rejects. *)
Definition bank_save (e : BankEntry) (bank : Bank) : option Bank :=
  if bank_validate e then Some (bank ++ [e]) else None.

(** The question as [storeExerciseQuiz] returns it for the quiz. *)
Record StoredQuestion := {
  sq_method : JSVal;
  sq_code : jsstr;
  sq_key : jsstr;
  sq_qtype : jsstr;
  sq_qvalue : option jsstr
}.

Definition space : jsstr := [" "%char].

(** [s.replace(' ', '').toLowerCase()]. *)
Definition bank_normalize (s : jsstr) : jsstr := toLowerCase (replace_first space [] s).

(** [item.question.split('/')[2]], [undefined] printing as "undefined". *)
Definition third_segment (s : jsstr) : jsstr :=
  match nth_error (split_on "/"%char s) 2 with
  | Some w => w
  | None => js "undefined"
  end.

Section StoreQuiz.
(** [saveBase64Image]: writes the decoded file under a name built from
    [Date.now()] and [Math.random()]; [None] is its [null]. *)
Variable saveBase64Image : jsstr -> option jsstr.

(** [method == 5 ? (isHexColor(item.question) ? 'hex' : 'path') : 'text']. *)
Definition question_type (item : StoreItem) : Throws QType :=
  match loose_eq (si_method item) (JSNum (NumFin 5)) with
  | Throw m => Throw m
  | Ok true => Ok (if isHexColor (si_question item) then QHex else QPath)
  | Ok false => Ok QText
  end.

(** [(qVal, qSave)] of lines 201-215 for the question type [t]. *)
Definition question_values (t : QType) (item : StoreItem) : option jsstr * option jsstr :=
  match t with
  | QPath =>
      if isBase64DataURL (si_question item)
      then let savedPath := saveBase64Image (si_question item) in (savedPath, savedPath)
      else let v := js "storage/exercise/" ++ third_segment (si_question item) in
           (Some v, Some v)
  | _ => (Some (bank_normalize (si_question item)), Some (si_question item))
  end.

(** [md5(JSON.stringify({ question: qVal, key: k }))] for the type [t]. *)
Definition question_code_of (t : QType) (item : StoreItem) : jsstr :=
  md5 (stringify_question_key (fst (question_values t item))
                              (bank_normalize (si_key item))).

Definition question_code (item : StoreItem) : Throws jsstr :=
  match question_type item with
  | Ok t => Ok (question_code_of t item)
  | Throw m => Throw m
  end.

(** The bank check and insert of lines 222-229 for one item: the bank
    after the step, and [Some] stored question or [None] when the step
    throws or [save()] rejects (the request then fails). *)
Definition bank_insert (bank : Bank) (item : StoreItem)
  : Bank * option StoredQuestion :=
  match question_type item with
  | Throw _ => (bank, None)
  | Ok t =>
      let '(qVal, qSave) := question_values t item in
      let code := question_code_of t item in
      let stored := {| sq_method := si_method item; sq_code := code;
                       sq_key := si_key item;
                       sq_qtype := qtype_tag t;
                       sq_qvalue := qSave |} in
      match bank_findOne code bank with
      | Some _ => (bank, Some stored)
      | None =>
          let entry := {| be_level := None; be_method := si_method item;
                          be_code := code; be_key := si_key item;
                          be_qtype := qtype_tag t;
                          be_qvalue := qVal |} in
          match bank_save entry bank with
          | Some bank' => (bank', Some stored)
          | None => (bank, None)
          end
      end
  end.
End StoreQuiz.

(** The normalisation the specification names for the content hash:
    lower-casing, and every run of whitespace collapsed to one space. *)
Fixpoint collapse_ws_from (in_run : bool) (s : jsstr) : jsstr :=
  match s with
  | [] => []
  | c :: s' =>
      if is_js_space c
      then (if in_run then collapse_ws_from true s'
            else " "%char :: collapse_ws_from true s')
      else c :: collapse_ws_from false s'
  end.

Definition collapse_ws (s : jsstr) : jsstr := collapse_ws_from false s.

Definition spec_normalize (s : jsstr) : jsstr := collapse_ws (toLowerCase s).

(* ================================================================= *)
(** ** ConstraintValidator: the filter step of [generate] (part_007) *)

(** A generated quiz item as [generateLLM] parsed it: [method] is whatever
    JSON value the model wrote ([JSUndefined] when absent); the model covers
    items whose [question] is an object with string [type] and [value]. *)
Record GenQuestion := {
  gq_type : jsstr;
  gq_value : jsstr
}.

Record GenItem := {
  gi_method : JSVal;
  gi_question : GenQuestion;
  gi_key : jsstr
}.

(** The whitelist [listImages] hard-coded in [generate]. *)
Definition listImages : list jsstr :=
  map js ["anjing"; "buku"; "gunting"; "kucing"; "kursi"; "meja"; "mobil";
          "motor"; "pensil"; "pesawat"; "singa"; "ular"]%string.

Definition is_path (item : GenItem) : bool :=
  jsstr_eqb (gq_type (gi_question item)) (js "path").

(** [item.question.value.replace('storage/exercise/', '')]. *)
Definition image_name (item : GenItem) : jsstr :=
  replace_first (js "storage/exercise/") [] (gq_value (gi_question item)).

(** The predicate passed to [parsedQuestions.filter] (lines 698-712);
    [method] is [req.body.method].  [&&] and [?:] evaluate as written: the
    second comparison of A only when the first holds, [item.method == method]
    only when [method == 0] is false.  A conversion that throws ends the
    filter. *)
Definition filter_keep (method : JSVal) (images : list jsstr) (item : GenItem)
  : Throws bool :=
  match (match js_ge_const (gi_method item) 1 with
         | Ok true => js_le_const (gi_method item) 6
         | r => r
         end) with
  | Throw m => Throw m
  | Ok isValidMethod =>
      match (match loose_eq method (JSNum (NumFin 0)) with
             | Ok true => Ok true
             | Ok false => loose_eq (gi_method item) method
             | Throw m => Throw m
             end) with
      | Throw m => Throw m
      | Ok matchesRequestedMethod =>
          if strict_eq_num (gi_method item) 6 && is_path item then Ok false
          else if is_path item && negb (existsb (jsstr_eqb (image_name item)) images)
          then Ok false
          else Ok (isValidMethod && matchesRequestedMethod)
      end
  end.

(** [Array.prototype.filter] with a predicate that may throw. *)
Fixpoint js_filter {A} (p : A -> Throws bool) (l : list A) : Throws (list A) :=
  match l with
  | [] => Ok []
  | x :: l' =>
      match p x with
      | Throw m => Throw m
      | Ok b =>
          match js_filter p l' with
          | Throw m => Throw m
          | Ok r => Ok (if b then x :: r else r)
          end
      end
  end.

(** [value.split('/').pop()]. *)
Definition last_segment (s : jsstr) : jsstr := last (split_on "/"%char s) [].

Definition with_png (fileName : jsstr) : jsstr :=
  if ends_with (js ".png") fileName then fileName else fileName ++ js ".png".

(** The [map] of lines 716-729. *)
Definition to_serving_path (item : GenItem) : GenItem :=
  if is_path item then
    {| gi_method := gi_method item;
       gi_question := {| gq_type := gq_type (gi_question item);
                         gq_value := js "image/exercise/"
                                     ++ with_png (last_segment (gq_value (gi_question item))) |};
       gi_key := gi_key item |}
  else item.

(** The end index of [arr.slice(0, end)] for an integral end: a negative
    end counts from the back. *)
Definition slice_end (len : nat) (e : Z) : nat :=
  if (e <? 0)%Z then Z.to_nat (Z.max 0 (Z.of_nat len + e)) else Nat.min len (Z.to_nat e).

(** The end index for the argument [quantity]: [undefined] is the length;
    otherwise ToIntegerOrInfinity of ToNumber (NaN is 0). *)
Definition slice_end_js (len : nat) (quantity : JSVal) : Throws nat :=
  match quantity with
  | JSUndefined => Ok len
  | _ =>
      match to_number quantity with
      | Throw m => Throw m
      | Ok NumNaN => Ok (slice_end len 0)
      | Ok (NumInf true) => Ok 0%nat
      | Ok (NumInf false) => Ok len
      | Ok (NumFin x) => Ok (slice_end len (trunc_Q x))
      end
  end.

(** [finalQuestions]: filter, rewrite to the serving path,
    [.slice(0, quantity)]. *)
Definition generate_filter (method quantity : JSVal) (images : list jsstr)
    (parsedQuestions : list GenItem) : Throws (list GenItem) :=
  match js_filter (filter_keep method images) parsedQuestions with
  | Throw m => Throw m
  | Ok filtered =>
      let mapped := map to_serving_path filtered in
      match slice_end_js (length mapped) quantity with
      | Throw m => Throw m
      | Ok e => Ok (firstn e mapped)
      end
  end.

(* ================================================================= *)
(** ** [parseInt] applied to a number *)

(** [parseInt(x)] converts [x] with [Number::toString] first: from 1e-6 to
    1e21 the decimal notation, whose integer part [parseInt] reads; below
    1e-6 and from 1e21 on the exponent notation ["d.ddde-7"], of which
    [parseInt] reads the leading digit only.  [x] is taken exactly. *)
Fixpoint lead_digit_small (p q : Z) (fuel : nat) : Z :=
  match fuel with
  | O => p / q
  | S fuel' => if (p <? q)%Z then lead_digit_small (10 * p) q fuel' else p / q
  end%Z.

Fixpoint lead_digit_large (p q : Z) (fuel : nat) : Z :=
  match fuel with
  | O => p / q
  | S fuel' => if (p <? 10 * q)%Z then p / q else lead_digit_large p (10 * q) fuel'
  end%Z.

Definition parseInt_abs (x : Q) : Z :=
  let p := Qnum x in
  let q := Zpos (Qden x) in
  if (p =? 0)%Z then 0%Z
  else if negb (Qle_bool (1 # 1000000) x) then lead_digit_small p q (Z.to_nat (Z.log2 q + 1))
  else if Qle_bool (inject_Z (10 ^ 21)) x then lead_digit_large p q (Z.to_nat (Z.log2 p + 1))
  else (p / q)%Z.

Definition parseInt_number (x : Q) : Z :=
  if Qle_bool 0 x then parseInt_abs x else (- parseInt_abs (- x))%Z.

(* ================================================================= *)
(** ** TranscriptionDispatcher and GradingPipeline: [answer] (part_007) *)


(** The body the AI server returns: [{ text, similarity }];
    [ai_similarity = None] stands for a falsy value ([0], [NaN], missing). *)
Record AIResponse := {
  ai_text : jsstr;
  ai_similarity : option Q
}.

(** A question of a quiz (exerciseModel). *)
Record Question := {
  q_id : jsstr;
  q_method : Q;
  q_code : jsstr;
  q_qtype : jsstr;
  q_qvalue : jsstr;
  q_key : jsstr
}.

(** An element of [quiz.answers]. *)
Record AnswerRecord := {
  ar_questionId : jsstr;
  ar_file : jsstr;
  ar_text : jsstr;
  ar_similarityPoint : Q;
  ar_timeOpened : jsstr;
  ar_timeAnswered : jsstr;
  ar_duration : jsstr
}.

Record Quiz := {
  quiz_id : jsstr;
  quiz_name : jsstr;
  quiz_questions : list Question;
  quiz_answers : list AnswerRecord;
  quiz_quizPoint : option Z;
  quiz_isHidden : bool
}.

(** An Exercise document.  The [createdAt] and [updatedAt] fields of the
    schema option [timestamps: true] are not modelled: every [save()] sets
    [updatedAt] to the current time. *)
Record Exercise := {
  ex_id : jsstr;
  ex_name : jsstr;
  ex_quiz : list Quiz
}.

(** An element of [req.body.answers]. *)
Record SubmittedAnswer := {
  sa_questionId : jsstr;
  sa_answer : jsstr;
  sa_fileType : jsstr;
  sa_timeOpened : jsstr;
  sa_timeAnswered : jsstr;
  sa_duration : jsstr
}.

(** The HTTP response sent by the controller. *)
Inductive Response :=
| RespOk (data : Exercise)
| RespError (status : Z) (message : jsstr).

(** [ans.answer.split(',')[1] || ans.answer]. *)
Definition base64_content (s : jsstr) : jsstr :=
  match nth_error (split_on ","%char s) 1 with
  | Some (_ :: _ as w) => w
  | _ => s
  end.

(** [responseFromAI.similarity || 0]. *)
Definition similarity_or_zero (r : AIResponse) : Q :=
  match ai_similarity r with Some s => s | None => 0 end.

(** [{ ...quiz, answers }] and [{ ...quiz, quizPoint }] as record updates. *)
Definition set_answers (quiz : Quiz) (answers : list AnswerRecord) (point : Z) : Quiz :=
  {| quiz_id := quiz_id quiz; quiz_name := quiz_name quiz;
     quiz_questions := quiz_questions quiz; quiz_answers := answers;
     quiz_quizPoint := Some point; quiz_isHidden := quiz_isHidden quiz |}.

(** [exercise.quiz.find(d => d._id == quizId)], with its position. *)
Fixpoint find_quiz (quizId : jsstr) (quizzes : list Quiz) (pos : nat)
  : option (nat * Quiz) :=
  match quizzes with
  | [] => None
  | d :: rest =>
      if jsstr_eqb (quiz_id d) quizId then Some (pos, d)
      else find_quiz quizId rest (S pos)
  end.

(** Writing the found sub-document back in place. *)
Fixpoint replace_at {A} (n : nat) (x : A) (l : list A) : list A :=
  match l, n with
  | [], _ => []
  | _ :: rest, O => x :: rest
  | y :: rest, S n' => y :: replace_at n' x rest
  end.

(** The validation [exercise.save()] runs on the whole document (Mongoose's
    [validateModifiedOnly] is off, so the paths loaded from the database
    are validated too): every [required] string is non-empty, and the
    [Date] paths pass the cast.  [date_ok] is that cast on a submitted
    string: Mongoose's [castDate] takes [''] as [null] and otherwise needs
    [new Date(value)] to be a valid date, which for strings outside the
    ISO format the engine decides.  The other casts cannot fail here: a
    recorded [questionId] is the string of an existing question's
    ObjectId (ids are abstracted as strings), [similarityPoint] and
    [quizPoint] are numbers cast to String, and the quiz [date] was set
    with [new Date()]. *)
Definition answer_record_valid (date_ok : jsstr -> bool) (r : AnswerRecord) : bool :=
  negb (js_falsy_str (ar_file r)) && negb (js_falsy_str (ar_duration r))
  && date_ok (ar_timeOpened r) && date_ok (ar_timeAnswered r).

(** [code], [question.type], [question.value] and [key] are required
    strings; [method], a required number, is always present here. *)
Definition question_valid (q : Question) : bool :=
  negb (js_falsy_str (q_code q)) && negb (js_falsy_str (q_qtype q))
  && negb (js_falsy_str (q_qvalue q)) && negb (js_falsy_str (q_key q)).

Definition quiz_valid (date_ok : jsstr -> bool) (qu : Quiz) : bool :=
  negb (js_falsy_str (quiz_name qu)) && forallb question_valid (quiz_questions qu)
  && forallb (answer_record_valid date_ok) (quiz_answers qu).

Definition exercise_valid (date_ok : jsstr -> bool) (ex : Exercise) : bool :=
  negb (js_falsy_str (ex_name ex)) && forallb (quiz_valid date_ok) (ex_quiz ex).

Section Grading.
(** The AI server's [/image-processing] and [/speech-to-text] endpoints,
    on the posted [(payload, correct)]; [None] when the axios call
    rejects. *)
Variable image_endpoint : jsstr -> jsstr -> option AIResponse.
Variable audio_endpoint : jsstr -> jsstr -> option AIResponse.
(** The [Date] cast of [exercise.save()] (see [answer_record_valid]). *)
Variable date_ok : jsstr -> bool.

Definition processImageToText (base64Content keyAnswer : jsstr) : Throws AIResponse :=
  match image_endpoint base64Content keyAnswer with
  | Some data => Ok data
  | None => Throw (js "Gagal memproses gambar.")
  end.

Definition processAudioToText (base64Content keyAnswer : jsstr) : Throws AIResponse :=
  match audio_endpoint base64Content keyAnswer with
  | Some data => Ok data
  | None => Throw (js "Gagal memproses audio.")
  end.

(** Steps 1 of the loop body: the transcription dispatch. *)
Definition transcribe (ans : SubmittedAnswer) (originalQuestion : Question)
  : Throws AIResponse :=
  if starts_with (js "image/") (sa_fileType ans)
  then processImageToText (sa_answer ans) (q_key originalQuestion)
  else if starts_with (js "audio/") (sa_fileType ans)
  then processAudioToText (base64_content (sa_answer ans)) (q_key originalQuestion)
  else Ok {| ai_text := []; ai_similarity := Some 0 |}.

Definition answer_record (ans : SubmittedAnswer) (resp : AIResponse) : AnswerRecord :=
  {| ar_questionId := sa_questionId ans;
     ar_file := sa_answer ans;
     ar_text := ai_text resp;
     ar_similarityPoint := similarity_or_zero resp;
     ar_timeOpened := sa_timeOpened ans;
     ar_timeAnswered := sa_timeAnswered ans;
     ar_duration := sa_duration ans |}.

Definition find_question (questions : list Question) (questionId : jsstr)
  : option Question :=
  find (fun q => jsstr_eqb (q_id q) questionId) questions.

(** Whether a submitted answer names a question of the quiz. *)
Definition has_question (questions : list Question) (ans : SubmittedAnswer) : bool :=
  match find_question questions (sa_questionId ans) with
  | Some _ => true
  | None => false
  end.

(** The [for (const ans of answers)] loop: the running [totalPoints] and
    [quiz.answers], or the error that escapes it. *)
Fixpoint answers_loop (questions : list Question) (answers : list SubmittedAnswer)
    (totalPoints : Q) (recorded : list AnswerRecord)
  : Throws (Q * list AnswerRecord) :=
  match answers with
  | [] => Ok (totalPoints, recorded)
  | ans :: rest =>
      match find_question questions (sa_questionId ans) with
      | None => answers_loop questions rest totalPoints recorded
      | Some originalQuestion =>
          match transcribe ans originalQuestion with
          | Throw m => Throw m
          | Ok responseFromAI =>
              let score := similarity_or_zero responseFromAI in
              answers_loop questions rest (totalPoints + score)
                (recorded ++ [answer_record ans responseFromAI])
          end
      end
  end.

(** [if (quiz.questions.length > 0) totalPoints = totalPoints / length;
     quiz.quizPoint = parseInt(totalPoints)]. *)
Definition quiz_point (questions : list Question) (totalPoints : Q) : Z :=
  let n := length questions in
  parseInt_number (if (0 <? n)%nat then totalPoints / inject_Z (Z.of_nat n)
                   else totalPoints).

(** [exports.answer]: the response and the stored exercise after the call
    ([exercise.save()] runs only at the end of the success path; an error
    caught by [errorHandling] leaves the stored document as it was). *)
Definition answer (stored : option Exercise) (quizId : jsstr)
    (answers : list SubmittedAnswer) : Response * option Exercise :=
  match stored with
  | None => (RespError 400 (js "Exercise not found"), stored)
  | Some exercise =>
      match find_quiz quizId (ex_quiz exercise) 0 with
      | None => (RespError 400 (js "Quiz not found"), stored)
      | Some (pos, quiz) =>
          (* [quiz.answers = []]: the loop starts from no answers *)
          match answers_loop (quiz_questions quiz) answers 0 [] with
          | Throw m => (RespError 500 m, stored)
          | Ok (totalPoints, recorded) =>
              let quiz' := set_answers quiz recorded
                             (quiz_point (quiz_questions quiz) totalPoints) in
              let exercise' := {| ex_id := ex_id exercise; ex_name := ex_name exercise;
                                  ex_quiz := replace_at pos quiz' (ex_quiz exercise) |} in
              if exercise_valid date_ok exercise'
              then (RespOk exercise', Some exercise')
              else (RespError 422 (js "Validation error"), stored)
          end
      end
  end.
End Grading.

(* ================================================================= *)
(** ** [errorHandling] (errorHandling.js) *)

(** One validator error of a Mongoose ValidationError. *)
Record ValidatorError := {
  ve_path : jsstr;
  ve_message : jsstr
}.

(** The fields of the caught error that [errorHandling] reads:
    [error.code] ([None] when it is not a number), [Object.keys] of
    [error.keyValue] ([None] when that is undefined or null),
    [Object.values] of [error.errors] ([None] when that is falsy) and
    [error.message]. *)
Record CaughtError := {
  ce_code : option Z;
  ce_keyValue : option (list jsstr);
  ce_errors : option (list ValidatorError);
  ce_message : jsstr
}.

(** A plain object with string values: its own properties in insertion
    order. *)
Definition JSObject := list (jsstr * jsstr).

(** [o[k] = v]: a property already present keeps its place. *)
Definition obj_set (k v : jsstr) (o : JSObject) : JSObject :=
  if existsb (fun kv => jsstr_eqb (fst kv) k) o
  then map (fun kv => if jsstr_eqb (fst kv) k then (k, v) else kv) o
  else o ++ [(k, v)].

(** [o[k]]; [None] is [undefined]. *)
Definition obj_get (k : jsstr) (o : JSObject) : option jsstr :=
  option_map snd (find (fun kv => jsstr_eqb (fst kv) k) o).

(** The two responses of [errorHandling]:
    [422 { success: false, message: "Validation error", errors }] and
    [500 { success: false, error: error.message }]. *)
Inductive ErrorResponse :=
| ValidationErrorResponse (errors : JSObject)
| ServerErrorResponse (error : jsstr).

(** Lines 297-300: the duplicate-key entry.  [Object.keys(undefined)]
    throws a TypeError inside the handler itself. *)
Definition duplicate_key_errors (error : CaughtError) : Throws JSObject :=
  match ce_code error with
  | Some c =>
      if (c =? 11000)%Z then
        match ce_keyValue error with
        | None => Throw (js "Cannot convert undefined or null to object")
        | Some keys =>
            let field := match keys with f :: _ => f | [] => js "undefined" end in
            Ok (obj_set field (js "The " ++ field ++ js " has already been taken") [])
        end
      else Ok []
  | None => Ok []
  end.

(** [errorHandling(error, req, res)]: the response it sends, or the error
    it throws itself (then no response is sent). *)
Definition errorHandling (error : CaughtError) : Throws ErrorResponse :=
  match duplicate_key_errors error with
  | Throw m => Throw m
  | Ok errors =>
      match ce_errors error with
      | Some errs =>
          Ok (ValidationErrorResponse
                (fold_left (fun acc err => obj_set (ve_path err) (ve_message err) acc)
                           errs errors))
      | None => Ok (ServerErrorResponse (ce_message error))
      end
  end.

(* ================================================================= *)
(** ** [show], [quiz] and [visibilty] of the exercise controller (part_007) *)

Module Exercises.

(** The [map] of lines 276-281 and 314-319 on one question: a [path]
    question with a truthy value is served from [image/exercise/]. *)
Definition display_question (q : Question) : Question :=
  if jsstr_eqb (q_qtype q) (js "path") && negb (js_falsy_str (q_qvalue q))
  then {| q_id := q_id q; q_method := q_method q; q_code := q_code q;
          q_qtype := q_qtype q;
          q_qvalue := js "image/exercise/" ++ third_segment (q_qvalue q);
          q_key := q_key q |}
  else q.

(** [{ ...qu, questions: questionWithImage }]. *)
Definition display_quiz (qu : Quiz) : Quiz :=
  {| quiz_id := quiz_id qu; quiz_name := quiz_name qu;
     quiz_questions := map display_question (quiz_questions qu);
     quiz_answers := quiz_answers qu; quiz_quizPoint := quiz_quizPoint qu;
     quiz_isHidden := quiz_isHidden qu |}.

(** Lines 285-288: [hidden] is [req.query.hidden] as one string, [None]
    when it is absent. *)
Definition hidden_filter (hidden : option jsstr) (quizzes : list Quiz) : list Quiz :=
  match hidden with
  | None => quizzes
  | Some h =>
      let isHiddenFilter := jsstr_eqb h (js "true") in
      filter (fun d => Bool.eqb (quiz_isHidden d) isHiddenFilter) quizzes
  end.

(** [exports.show] on the document [findById(req.params.id)]. *)
Definition show (stored : option Exercise) (hidden : option jsstr) : Response :=
  match stored with
  | None => RespError 400 (js "Exercise not found")
  | Some data =>
      RespOk {| ex_id := ex_id data; ex_name := ex_name data;
                ex_quiz := hidden_filter hidden (map display_quiz (ex_quiz data)) |}
  end.

Inductive QuizResult :=
| QuizOk (data : Quiz)
| QuizError (status : Z) (message : jsstr).

(** [exports.quiz]. *)
Definition quiz (stored : option Exercise) (quizId : jsstr) : QuizResult :=
  match stored with
  | None => QuizError 400 (js "Exercise not found")
  | Some data =>
      match find_quiz quizId (ex_quiz data) 0 with
      | None => QuizError 400 (js "Quiz not found")
      | Some (_, qu) => QuizOk (display_quiz qu)
      end
  end.

Definition set_hidden (qu : Quiz) (b : bool) : Quiz :=
  {| quiz_id := quiz_id qu; quiz_name := quiz_name qu;
     quiz_questions := quiz_questions qu; quiz_answers := quiz_answers qu;
     quiz_quizPoint := quiz_quizPoint qu; quiz_isHidden := b |}.

Inductive VisibilityResult :=
| VisibilityOk (isHidden : bool)
| VisibilityError (status : Z) (message : jsstr).

(** [exports.visibilty]: the response and the stored exercise after it. *)
Definition visibilty (role : Z) (stored : option Exercise) (quizId : jsstr)
  : VisibilityResult * option Exercise :=
  if negb (role =? 1)%Z then (VisibilityError 403 (js "Forbidden access"), stored)
  else
    match stored with
    | None => (VisibilityError 400 (js "Exercise not found"), stored)
    | Some exercise =>
        match find_quiz quizId (ex_quiz exercise) 0 with
        | None => (VisibilityError 400 (js "Quiz not found"), stored)
        | Some (pos, qu) =>
            let qu' := set_hidden qu (negb (quiz_isHidden qu)) in
            let exercise' := {| ex_id := ex_id exercise; ex_name := ex_name exercise;
                                ex_quiz := replace_at pos qu' (ex_quiz exercise) |} in
            (VisibilityOk (quiz_isHidden qu'), Some exercise')
        end
    end.

End Exercises.

(* ================================================================= *)
(** ** [insert] of the childs controller (part_007),
    over the User collection (userModel, part_001) *)

Module Childs.

(** The fields of a User document these handlers read or write;
    [u_deleted] is the flag of the mongoose-delete plugin. *)
Record User := {
  u_id : jsstr;
  u_role : Z;
  u_code : option jsstr;
  u_childIds : list jsstr;
  u_parentsId : option jsstr;
  u_teacherId : option jsstr;
  u_deleted : bool
}.

Definition Users := list User.

Definition has_id (i : jsstr) (u : User) : bool := jsstr_eqb (u_id u) i.

(** A document the queries see: with [overrideMethods: 'all'] every
    query skips soft-deleted documents. *)
Definition live_id (i : jsstr) (u : User) : bool := negb (u_deleted u) && has_id i u.

(** [findById(id)]; [findById(null)] finds nothing. *)
Definition findById (id : option jsstr) (users : Users) : option User :=
  match id with
  | Some i => find (live_id i) users
  | None => None
  end.

(** [findOne({ _id, role })]. *)
Definition findOne_id_role (i : jsstr) (role : Z) (users : Users) : option User :=
  find (fun u => live_id i u && (u_role u =? role)%Z) users.

(** [findOne({ code })]. *)
Definition findOne_code (code : jsstr) (users : Users) : option User :=
  find (fun u => negb (u_deleted u)
                 && match u_code u with Some c => jsstr_eqb c code | None => false end)
       users.

(** The update of the first document matching [p] ([save()] of a loaded
    document, [findByIdAndUpdate]). *)
Fixpoint update_first (p : User -> bool) (f : User -> User) (users : Users) : Users :=
  match users with
  | [] => []
  | u :: rest => if p u then f u :: rest else u :: update_first p f rest
  end.

Definition set_childIds (u : User) (l : list jsstr) : User :=
  {| u_id := u_id u; u_role := u_role u; u_code := u_code u; u_childIds := l;
     u_parentsId := u_parentsId u; u_teacherId := u_teacherId u;
     u_deleted := u_deleted u |}.

Definition set_teacherId (u : User) (t : option jsstr) : User :=
  {| u_id := u_id u; u_role := u_role u; u_code := u_code u; u_childIds := u_childIds u;
     u_parentsId := u_parentsId u; u_teacherId := t; u_deleted := u_deleted u |}.

Inductive HttpResult :=
| HttpOk (status : Z) (message : jsstr)
| HttpError (status : Z) (message : jsstr).

(** [exports.insert]: [role] and [userId] come from the token,
    [code] is [req.body.code].  Both saves skip validation. *)
Definition insert (role : Z) (userId : jsstr) (code : jsstr) (users : Users)
  : HttpResult * Users :=
  if negb (role =? 1)%Z then (HttpError 403 (js "Forbidden access"), users)
  else
    match findOne_id_role userId 1 users with
    | None => (HttpError 400 (js "Teacher not found"), users)
    | Some teacher =>
        if js_falsy_str code then (HttpError 422 (js "Validation error"), users)
        else
          match findOne_code code users with
          | None => (HttpError 400 (js "Child not found"), users)
          | Some child =>
              match u_teacherId child with
              | Some t =>
                  if jsstr_eqb t (u_id teacher)
                  then (HttpError 400 (js "Child has already been added by you"), users)
                  else (HttpError 400 (js "Child already has a teacher"), users)
              | None =>
                  (* [teacher.childIds.push(child._id)] is saved as a [$push] *)
                  let users := update_first (has_id (u_id teacher))
                                 (fun u => set_childIds u (u_childIds u ++ [u_id child])) users in
                  let users := update_first (has_id (u_id child))
                                 (fun u => set_teacherId u (Some (u_id teacher))) users in
                  (HttpOk 201 (js "Successfully added student"), users)
              end
          end
    end.

End Childs.

(** The sum of the recorded similarity points. *)
Definition sum_points (records : list AnswerRecord) : Q :=
  fold_right (fun r acc => ar_similarityPoint r + acc) 0 records.

(** The id of a quiz and the keys of its questions. *)
Definition quiz_keys (qu : Quiz) : jsstr * list jsstr :=
  (quiz_id qu, map q_key (quiz_questions qu)).

(** A string without a slash. *)
Definition no_slash (s : jsstr) : bool := forallb (fun c => negb (Ascii.eqb c "/"%char)) s.

(* ================================================================= *)
(** ** Concrete inputs used by the examples below *)

(** No image is uploaded by the store items of the examples
    ([saveBase64Image] is not reached for text and hex items). *)
Definition no_upload : jsstr -> option jsstr := fun _ => None.

(** An AI server whose transcription endpoint answers with the expected
    key and a fixed similarity. *)
Definition endpoint_fixed (similarity : Q) : jsstr -> jsstr -> option AIResponse :=
  fun _ correct => Some {| ai_text := correct; ai_similarity := Some similarity |}.

(** An AI server endpoint whose calls all fail. *)
Definition endpoint_down : jsstr -> jsstr -> option AIResponse := fun _ _ => None.

Definition question_of (id key : string) : Question :=
  {| q_id := js id; q_method := 1; q_code := md5 (js key); q_qtype := js "text";
     q_qvalue := js key; q_key := js key |}.

(** The timestamps the examples submit, in the ECMAScript date-time
    format, which [Date] accepts. *)
Definition time_opened : jsstr := js "2024-05-01T08:00:00.000Z".
Definition time_answered : jsstr := js "2024-05-01T08:00:12.000Z".

(** A sample [Date] cast: the UTC strings of the ECMAScript date-time
    format [YYYY-MM-DDTHH:mm:ss.sssZ] (the engine accepts more). *)
Fixpoint shape_match (pat s : jsstr) : bool :=
  match pat, s with
  | [], [] => true
  | p :: pat', c :: s' =>
      (if Ascii.eqb p "d"%char then JSONText.is_digit c else Ascii.eqb p c)
      && shape_match pat' s'
  | _, _ => false
  end.

Definition iso_date_time_format (s : jsstr) : bool :=
  shape_match (js "dddd-dd-ddTdd:dd:dd.dddZ") s.

(** An answer recorded by an earlier submission. *)
Definition old_record : AnswerRecord :=
  {| ar_questionId := js "q1"; ar_file := js "old"; ar_text := js "lama";
     ar_similarityPoint := 40; ar_timeOpened := time_opened;
     ar_timeAnswered := time_answered; ar_duration := js "9" |}.

Definition quiz_of (id : string) (questions : list Question) : Quiz :=
  {| quiz_id := js id; quiz_name := js "Latihan"; quiz_questions := questions;
     quiz_answers := [old_record]; quiz_quizPoint := None; quiz_isHidden := false |}.

Definition exercise_of (quizzes : list Quiz) : Exercise :=
  {| ex_id := js "ex1"; ex_name := js "Membaca"; ex_quiz := quizzes |}.

Definition submission (questionId fileType : string) : SubmittedAnswer :=
  {| sa_questionId := js questionId;
     sa_answer := js "data:image/png;base64,iVBORw0KGgo=";
     sa_fileType := js fileType; sa_timeOpened := time_opened;
     sa_timeAnswered := time_answered;
     sa_duration := js "12" |}.

(** A quiz of four questions. *)
Definition four_questions : list Question :=
  [question_of "q1" "buku"; question_of "q2" "meja"; question_of "q3" "kursi";
   question_of "q4" "pensil"].

(* ================================================================= *)
(** * Properties *)

(** ** Sanity checks of the embedding *)

Example md5_empty_string : md5 [] = js "d41d8cd98f00b204e9800998ecf8427e".
Proof. vm_compute. reflexivity. Qed.

Example md5_abc : md5 (js "abc") = js "900150983cd24fb0d6963f7d28e17f72".
Proof. vm_compute. reflexivity. Qed.

Example md5_two_blocks :
  md5 (js "12345678901234567890123456789012345678901234567890123456789012345678901234567890")
  = js "57edf4a22be3c955ac49da2e2107b67a".
Proof. vm_compute. reflexivity. Qed.

Example score_case_insensitive :
  calculateCharacterMatchScore (js "kucing") (js "Kucing") == 100.
Proof. vm_compute. reflexivity. Qed.

(** ** SimilarityScorer *)

Lemma unit_eqb_refl (x : option ascii) : unit_eqb x x = true.
Proof. destruct x; simpl; [apply Ascii.eqb_refl | reflexivity]. Qed.

Lemma unit_eqb_sym (x y : option ascii) : unit_eqb x y = unit_eqb y x.
Proof. destruct x, y; simpl; try reflexivity. apply Ascii.eqb_sym. Qed.

Lemma count_matches_le (a b : jsstr) (i fuel c : nat) :
  (count_matches a b i fuel c <= c + fuel)%nat.
Proof.
  revert i c; induction fuel as [|fuel IH]; intros i c; simpl; [lia|].
  destruct (unit_eqb _ _); specialize (IH (S i)); [specialize (IH (S c)) | specialize (IH c)]; lia.
Qed.

Lemma count_matches_self (a : jsstr) (i fuel c : nat) :
  count_matches a a i fuel c = (c + fuel)%nat.
Proof.
  revert i c; induction fuel as [|fuel IH]; intros i c; simpl; [lia|].
  rewrite unit_eqb_refl, IH. lia.
Qed.

Lemma count_matches_sym (a b : jsstr) (i fuel c : nat) :
  count_matches a b i fuel c = count_matches b a i fuel c.
Proof.
  revert i c; induction fuel as [|fuel IH]; intros i c; simpl; [reflexivity|].
  rewrite unit_eqb_sym, IH. reflexivity.
Qed.

(** The ratio [c / L * 100] for [c <= L], [L > 0]. *)
Lemma ratio_bounds (c l : nat) :
  (c <= S l)%nat ->
  0 <= inject_Z (Z.of_nat c) / inject_Z (Z.of_nat (S l)) * 100 <= 100.
Proof.
  intros H.
  rewrite Nat2Z.inj_succ.
  unfold Qdiv, Qle, Qmult, Qinv, inject_Z; simpl.
  destruct (Z.succ (Z.of_nat l)) eqn:E; [lia| |lia]; simpl.
  split; lia.
Qed.

(** Claim C8, refuted: both inputs empty, the score is 0, not 100 (the
    guard [if (!stringA || !stringB) return 0] fires first). *)
Lemma score_empty_strings_is_zero :
  calculateCharacterMatchScore [] [] = 0 /\ ~ (calculateCharacterMatchScore [] [] == 100).
Proof. split; [reflexivity | vm_compute; discriminate]. Qed.

(** Claim C8, as amended: the score is 0 as soon as one input is the empty
    string; when both inputs are non-empty but lower-case and trim to the
    empty string (whitespace only), so that [L = 0], the score is 100. *)
Theorem score_empty_and_blank_inputs :
  (forall a b : jsstr, a = [] \/ b = [] -> calculateCharacterMatchScore a b = 0) /\
  (forall a b : jsstr, a <> [] -> b <> [] ->
     trim (toLowerCase a) = [] -> trim (toLowerCase b) = [] ->
     calculateCharacterMatchScore a b = 100).
Proof.
  split.
  - intros a b [-> | ->]; unfold calculateCharacterMatchScore; simpl;
      [reflexivity | now rewrite orb_true_r].
  - intros a b Ha Hb Ea Eb. unfold calculateCharacterMatchScore.
    destruct a as [|x a]; [congruence|]. destruct b as [|y b]; [congruence|].
    simpl js_falsy_str; simpl orb. cbv zeta. rewrite Ea, Eb. reflexivity.
Qed.

Lemma score_empty_and_blank_inputs_witness :
  calculateCharacterMatchScore (js " ") (js "  ") = 100.
Proof.
  apply (proj2 score_empty_and_blank_inputs); vm_compute; congruence.
Defined.

(** Claim C9: for all strings the score lies in [0, 100], a non-empty string
    scores 100 against itself, and the score is symmetric. *)
Theorem score_bounds_self_symmetric :
  forall a b : jsstr,
    (0 <= calculateCharacterMatchScore a b <= 100) /\
    (a <> [] -> calculateCharacterMatchScore a a == 100) /\
    calculateCharacterMatchScore a b = calculateCharacterMatchScore b a.
Proof.
  intros a b. split; [|split].
  - unfold calculateCharacterMatchScore.
    destruct (js_falsy_str a || js_falsy_str b); [split; discriminate|].
    cbv zeta.
    destruct (Nat.max _ _) as [|l] eqn:E; simpl Nat.eqb; [split; discriminate|].
    apply ratio_bounds. rewrite <- E. apply count_matches_le.
  - intros Ha. unfold calculateCharacterMatchScore.
    destruct a as [|x a']; [congruence|]. simpl js_falsy_str; simpl orb. cbv zeta.
    rewrite count_matches_self, Nat.max_id.
    destruct (length _) as [|l]; simpl Nat.eqb; [reflexivity|].
    simpl Nat.add. unfold Qeq, Qdiv, Qmult, Qinv, inject_Z; simpl.
    destruct (Z.of_nat (S l)) eqn:E; simpl; lia.
  - unfold calculateCharacterMatchScore.
    rewrite (orb_comm (js_falsy_str a)). cbv zeta.
    rewrite (Nat.max_comm (length (trim (toLowerCase b)))).
    rewrite (count_matches_sym (trim (toLowerCase b))). reflexivity.
Qed.

Lemma score_bounds_self_symmetric_witness :
  calculateCharacterMatchScore (js "meja") (js "meja") == 100.
Proof.
  apply (proj1 (proj2 (score_bounds_self_symmetric (js "meja") (js "meja")))).
  discriminate.
Defined.

(** ** OutputSanitizer *)

Lemma trim_start_suffix (s : jsstr) : exists p, s = p ++ trim_start s.
Proof.
  induction s as [|c s IH]; simpl; [exists []; reflexivity|].
  destruct (is_js_space c).
  - destruct IH as [p Hp]. exists (c :: p). simpl. f_equal. exact Hp.
  - exists []. reflexivity.
Qed.
















(** ** GenerationClient *)

(** The endpoint is called at most [retries] times, and the loop ends in
    [GenExhausted] only after exactly [retries] calls. *)
Lemma generate_loop_calls {json : Type} (JSON_parse : jsstr -> option json)
    (endpoint : nat -> LLMReply) (i fuel : nat) :
  (snd (generate_loop json JSON_parse endpoint i fuel) <= i + fuel)%nat /\
  (fst (generate_loop json JSON_parse endpoint i fuel) = GenExhausted ->
   snd (generate_loop json JSON_parse endpoint i fuel) = i + fuel)%nat.
Proof.
  revert i; induction fuel as [|fuel IH]; intros i; simpl.
  - split; [lia | intros _; lia].
  - destruct (endpoint i) as [|[raw|]];
      try (destruct (IH (S i)) as [IH1 IH2]; split; [lia | intros E; rewrite (IH2 E); lia]).
    simpl. split; [lia | discriminate].
Qed.

Lemma generateLLM_calls_le {json : Type} (JSON_parse : jsstr -> option json)
    (endpoint : nat -> LLMReply) (retries : nat) :
  (snd (generateLLM json JSON_parse endpoint retries) <= retries)%nat.
Proof. apply (generate_loop_calls JSON_parse endpoint 0 retries). Qed.

(** Claim C1, on the code: when the first reply of the model is text that
    [JSON.parse] rejects after cleaning, [generateLLM] does not retry: after
    one endpoint call it returns [tryParseJSON]'s [null], instead of
    retrying and finally throwing "Model failed to produce valid JSON". *)
Theorem generateLLM_returns_null_on_parse_failure {json : Type}
    (JSON_parse : jsstr -> option json) (endpoint : nat -> LLMReply)
    (retries : nat) (raw : jsstr) :
  (0 < retries)%nat ->
  endpoint 0%nat = ReplyOk (Some raw) ->
  JSON_parse (cleanLLMOutput raw) = None ->
  generateLLM json JSON_parse endpoint retries = (GenReturned None, 1%nat).
Proof.
  intros Hr He Hp. destruct retries as [|r]; [lia|].
  unfold generateLLM; simpl. rewrite He. unfold tryParseJSON. rewrite Hp. reflexivity.
Qed.

Lemma generateLLM_returns_null_on_parse_failure_witness :
  generateLLM_default JSONText.value JSONText.parse
    (fun _ => ReplyOk (Some (js "Sorry, I cannot help with that.")))
  = (GenReturned None, 1%nat).
Proof.
  apply (generateLLM_returns_null_on_parse_failure JSONText.parse _ 3
           (js "Sorry, I cannot help with that.")).
  - lia.
  - reflexivity.
  - vm_compute. reflexivity.
Defined.

(** ** QuestionBank *)

Lemma jsstr_eqb_refl (s : jsstr) : jsstr_eqb s s = true.
Proof. induction s as [|c s IH]; simpl; [reflexivity|]. now rewrite Ascii.eqb_refl, IH. Qed.

(** Claim C3 (code bug): items whose question values and keys agree after
    lower-casing and collapsing whitespace get different codes, so each
    would get its own bank entry.  The first pair is two image items
    (method 5): the storage path is not lower-cased.  The second pair is two
    text items (method 1): [.replace(' ', '')] removes only the first
    space, so "buku  merah" keeps one space where "buku merah" keeps none. *)
Lemma bank_code_differs_for_normalized_equal_items :
  let a1 := {| si_method := JSNum (NumFin 5); si_question := js "image/exercise/Kucing.png";
               si_key := js "kucing" |} in
  let b1 := {| si_method := JSNum (NumFin 5); si_question := js "image/exercise/kucing.png";
               si_key := js "kucing" |} in
  let a2 := {| si_method := JSNum (NumFin 1); si_question := js "buku  merah";
               si_key := js "x" |} in
  let b2 := {| si_method := JSNum (NumFin 1); si_question := js "buku merah";
               si_key := js "x" |} in
  spec_normalize (si_question a1) = spec_normalize (si_question b1) /\
  spec_normalize (si_key a1) = spec_normalize (si_key b1) /\
  question_code no_upload a1 <> question_code no_upload b1 /\
  spec_normalize (si_question a2) = spec_normalize (si_question b2) /\
  spec_normalize (si_key a2) = spec_normalize (si_key b2) /\
  question_code no_upload a2 <> question_code no_upload b2.
Proof.
  intros a1 b1 a2 b2.
  split; [vm_compute; reflexivity|]. split; [vm_compute; reflexivity|].
  split; [vm_compute; discriminate|].
  split; [vm_compute; reflexivity|]. split; [vm_compute; reflexivity|].
  vm_compute; discriminate.
Qed.

(** The bank step as written never adds an entry: the QuestionBank schema
    requires [level], which [storeExerciseQuiz] does not supply, so [save()]
    of a new code rejects and the request fails. *)
Lemma bank_insert_never_adds (saveBase64Image : jsstr -> option jsstr)
    (bank : Bank) (item : StoreItem) :
  fst (bank_insert saveBase64Image bank item) = bank.
Proof.
  unfold bank_insert. destruct (question_type item) as [t|m]; [|reflexivity].
  destruct (question_values saveBase64Image t item) as [qVal qSave].
  destruct (bank_findOne _ bank); reflexivity.
Qed.

(** ** ConstraintValidator *)

Lemma jsstr_eqb_eq (a b : jsstr) : jsstr_eqb a b = true -> a = b.
Proof.
  revert b; induction a as [|x a IH]; intros [|y b]; simpl; try discriminate; [reflexivity|].
  intros H. apply andb_true_iff in H as [H1 H2].
  apply Ascii.eqb_eq in H1. subst. f_equal. apply IH, H2.
Qed.

Lemma to_serving_path_is_path (item : GenItem) :
  is_path (to_serving_path item) = is_path item.
Proof. unfold to_serving_path. destruct (is_path item) eqn:E; exact E. Qed.

Lemma js_filter_incl {A} (p : A -> Throws bool) (l r : list A) (y : A) :
  js_filter p l = Ok r -> In y r -> In y l.
Proof.
  revert r; induction l as [|x l IH]; intros r; simpl.
  - intros [= <-]. contradiction.
  - destruct (p x) as [b|m]; [|discriminate].
    destruct (js_filter p l) as [r'|m] eqn:F; [|discriminate].
    intros [= <-]. destruct b; [intros [<-|H]; [left; reflexivity|right; exact (IH _ eq_refl H)]|].
    intros H. right. exact (IH _ eq_refl H).
Qed.

Lemma generate_filter_from_serving (method quantity : JSVal) (images : list jsstr)
    (parsedQuestions ys : list GenItem) (y : GenItem) :
  generate_filter method quantity images parsedQuestions = Ok ys -> In y ys ->
  exists x, In x parsedQuestions /\ y = to_serving_path x.
Proof.
  unfold generate_filter.
  destruct (js_filter _ _) as [filtered|m] eqn:F; [|discriminate].
  destruct (slice_end_js _ _) as [e|m]; [|discriminate].
  intros [= <-] Hy.
  assert (Hm : In y (map to_serving_path filtered)).
  { rewrite <- (firstn_skipn e (map to_serving_path filtered)).
    apply in_or_app. left. exact Hy. }
  apply in_map_iff in Hm as [x [<- Hx]].
  exists x. split; [exact (js_filter_incl _ _ _ _ F Hx) | reflexivity].
Qed.

(** Claim C4 (code bug): rule C tests [item.method === 6], while rules A
    and B convert the method to a number.  A generated image item with the
    string method "6" passes every rule, also when the request asks for
    method 6 only; an item with the method 2.5 is returned as well. *)
Theorem generate_filter_keeps_method_six_path :
  let six := {| gi_method := JSStr (js "6");
                gi_question := {| gq_type := js "path"; gq_value := js "kucing" |};
                gi_key := js "5" |} in
  let frac := {| gi_method := JSNum (NumFin (5 # 2));
                 gi_question := {| gq_type := js "text"; gq_value := js "buku" |};
                 gi_key := js "buku" |} in
  generate_filter (JSNum (NumFin 0)) (JSNum (NumFin 2)) listImages [six; frac]
  = Ok [to_serving_path six; frac] /\
  generate_filter (JSNum (NumFin 6)) (JSNum (NumFin 1)) listImages [six]
  = Ok [to_serving_path six] /\
  is_path (to_serving_path six) = true /\
  loose_eq (gi_method (to_serving_path six)) (JSNum (NumFin 6)) = Ok true /\
  ~ (exists z : Z, gi_method frac = JSNum (NumFin (inject_Z z))).
Proof.
  intros six frac.
  split; [vm_compute; reflexivity|]. split; [vm_compute; reflexivity|].
  split; [vm_compute; reflexivity|]. split; [vm_compute; reflexivity|].
  intros [z Hz]. inversion Hz.
Qed.

(** ** GradingPipeline *)

Section GradingFacts.
Variables image_endpoint audio_endpoint : jsstr -> jsstr -> option AIResponse.

Lemma answers_loop_app (questions : list Question) (l1 l2 : list SubmittedAnswer)
    (totalPoints : Q) (recorded : list AnswerRecord) :
  answers_loop image_endpoint audio_endpoint questions (l1 ++ l2) totalPoints recorded
  = match answers_loop image_endpoint audio_endpoint questions l1 totalPoints recorded with
    | Ok (t, r) => answers_loop image_endpoint audio_endpoint questions l2 t r
    | Throw m => Throw m
    end.
Proof.
  revert totalPoints recorded; induction l1 as [|ans l1 IH]; intros t r; simpl;
    [reflexivity|].
  destruct (find_question questions (sa_questionId ans)) as [q|]; [|apply IH].
  destruct (transcribe image_endpoint audio_endpoint ans q); [apply IH | reflexivity].
Qed.

Lemma answers_loop_ids (questions : list Question) (answers : list SubmittedAnswer)
    (t t' : Q) (r r' : list AnswerRecord) :
  answers_loop image_endpoint audio_endpoint questions answers t r = Ok (t', r') ->
  map ar_questionId r'
  = map ar_questionId r ++ map sa_questionId (filter (has_question questions) answers).
Proof.
  revert t r; induction answers as [|ans answers IH]; intros t r; cbn [answers_loop filter].
  - intros H. inversion H. rewrite app_nil_r. reflexivity.
  - unfold has_question at 1.
    destruct (find_question questions (sa_questionId ans)) as [q|]; [|apply IH].
    cbn [map].
    destruct (transcribe image_endpoint audio_endpoint ans q) as [resp|m]; [|discriminate].
    intros H. rewrite (IH _ _ H), map_app, <- app_assoc. reflexivity.
Qed.

(** A quiz without questions matches no answer and scores 0. *)
Lemma answers_loop_no_questions (answers : list SubmittedAnswer) :
  answers_loop image_endpoint audio_endpoint [] answers 0 [] = Ok (0, []).
Proof. induction answers as [|ans answers IH]; simpl; [reflexivity | exact IH]. Qed.
End GradingFacts.

Lemma quiz_point_no_questions : quiz_point [] 0 = 0%Z.
Proof. reflexivity. Qed.

(** Away from the exponent notation of [Number::toString] (a non-zero
    average below 1e-6, or one from 1e21 on), [parseInt] truncates: the
    quiz point is the floor of the non-negative total divided by the
    number of questions. *)
Lemma quiz_point_truncates_in_decimal_range (questions : list Question) (totalPoints : Q) :
  questions <> [] ->
  let avg := totalPoints / inject_Z (Z.of_nat (length questions)) in
  0 <= avg -> (avg == 0 \/ ((1 # 1000000) <= avg /\ avg < inject_Z (10 ^ 21))) ->
  quiz_point questions totalPoints = Qfloor avg.
Proof.
  intros Hne avg H0 Hr. unfold quiz_point. cbv zeta.
  assert (Hn : (0 <? length questions)%nat = true)
    by (destruct questions; [congruence | reflexivity]).
  rewrite Hn. fold avg. unfold parseInt_number.
  assert (Hb : Qle_bool 0 avg = true) by (apply Qle_bool_iff; exact H0).
  rewrite Hb. unfold parseInt_abs.
  destruct avg as [p d] eqn:Ea. simpl Qnum. simpl Qden.
  destruct (p =? 0)%Z eqn:Ep.
  - apply Z.eqb_eq in Ep. subst p. reflexivity.
  - destruct Hr as [Hz | [Hlo Hhi]].
    + unfold Qeq in Hz. simpl in Hz. apply Z.eqb_neq in Ep. lia.
    + assert (L : Qle_bool (1 # 1000000) (p # d) = true) by (apply Qle_bool_iff; exact Hlo).
      assert (U : Qle_bool (inject_Z (10 ^ 21)) (p # d) = false).
      { destruct (Qle_bool (inject_Z (10 ^ 21)) (p # d)) eqn:E; [|reflexivity].
        apply Qle_bool_iff in E. exfalso. apply (Qlt_not_le _ _ Hhi E). }
      rewrite L, U. reflexivity.
Qed.

(** The completeness penalty of the specification: four questions, two of
    them answered with similarity 100, give the quiz point 50. *)
Example quiz_point_four_questions_two_answers :
  match answer (endpoint_fixed 100) endpoint_down iso_date_time_format
          (Some (exercise_of [quiz_of "z1" four_questions])) (js "z1")
          [submission "q1" "image/png"; submission "q3" "image/jpeg"] with
  | (RespOk ex', _) => map quiz_quizPoint (ex_quiz ex') = [Some 50%Z]
  | _ => False
  end.
Proof. vm_compute. reflexivity. Qed.

(** Claim C2, on the code: one question answered with similarity 5e-7
    gives the average 5e-7; [String(5e-7)] is ["5e-7"], so
    [parseInt(totalPoints)] stores 5 where truncation gives 0.  The answer
    carries valid timestamps, so [exercise.save()] accepts the document,
    for any [Date] cast that accepts them. *)
Theorem quizPoint_reads_exponent_notation (date_ok : jsstr -> bool) :
  date_ok time_opened = true -> date_ok time_answered = true ->
  match answer (endpoint_fixed (5 # 10000000)) endpoint_down date_ok
          (Some (exercise_of [quiz_of "z1" [question_of "q1" "buku"]])) (js "z1")
          [submission "q1" "image/png"] with
  | (RespOk ex', _) => map quiz_quizPoint (ex_quiz ex') = [Some 5%Z]
  | _ => False
  end /\ Qfloor ((5 # 10000000) / inject_Z 1) = 0%Z.
Proof.
  intros H1 H2. split; [|vm_compute; reflexivity].
  vm_compute in H1, H2 |- *. rewrite H1, H2. vm_compute. reflexivity.
Qed.

Lemma quizPoint_reads_exponent_notation_witness :
  match answer (endpoint_fixed (5 # 10000000)) endpoint_down iso_date_time_format
          (Some (exercise_of [quiz_of "z1" [question_of "q1" "buku"]])) (js "z1")
          [submission "q1" "image/png"] with
  | (RespOk ex', _) => map quiz_quizPoint (ex_quiz ex') = [Some 5%Z]
  | _ => False
  end /\ Qfloor ((5 # 10000000) / inject_Z 1) = 0%Z.
Proof.
  apply (quizPoint_reads_exponent_notation iso_date_time_format);
    vm_compute; reflexivity.
Defined.

Lemma transcribe_throw_message
    (image_endpoint audio_endpoint : jsstr -> jsstr -> option AIResponse)
    (ans : SubmittedAnswer) (q : Question) (m : jsstr) :
  transcribe image_endpoint audio_endpoint ans q = Throw m ->
  m = js "Gagal memproses gambar." \/ m = js "Gagal memproses audio.".
Proof.
  unfold transcribe, processImageToText, processAudioToText.
  destruct (starts_with _ _); [|destruct (starts_with _ _)].
  - destruct (image_endpoint _ _); intros H; inversion H; auto.
  - destruct (audio_endpoint _ _); intros H; inversion H; auto.
  - discriminate.
Qed.

(** The submission of C5's counterexample fails before [save()], so its
    outcome does not depend on the [Date] cast. *)
Lemma audio_failure_aborts_for_any_date_cast (date_ok : jsstr -> bool) :
  answer (endpoint_fixed 100) endpoint_down date_ok
    (Some (exercise_of [quiz_of "z1" four_questions])) (js "z1")
    [submission "q1" "image/png"; submission "q2" "audio/mpeg";
     submission "q3" "image/png"]
  = (RespError 500 (js "Gagal memproses audio."),
     Some (exercise_of [quiz_of "z1" four_questions])).
Proof. vm_compute. reflexivity. Qed.

(** Claim C5, refuted: with the speech-to-text endpoint down, an audio
    answer to the second question makes the whole submission fail with
    status 500; the image answers before and after it are not recorded,
    and the stored exercise keeps its earlier answers (for every [Date]
    cast, by the lemma above; stated here for the ISO format check). *)
Example audio_failure_aborts_submission :
  answer (endpoint_fixed 100) endpoint_down iso_date_time_format
    (Some (exercise_of [quiz_of "z1" four_questions])) (js "z1")
    [submission "q1" "image/png"; submission "q2" "audio/mpeg";
     submission "q3" "image/png"]
  = (RespError 500 (js "Gagal memproses audio."),
     Some (exercise_of [quiz_of "z1" four_questions])).
Proof. exact (audio_failure_aborts_for_any_date_cast iso_date_time_format). Qed.

(** Claim C5, as the code behaves: when the transcription of an answer to
    a question of the quiz fails, the whole call fails with status 500 and
    the service's message, whatever answers follow, and the stored
    exercise is left as it was. *)
Theorem answer_aborts_on_transcription_failure
    (image_endpoint audio_endpoint : jsstr -> jsstr -> option AIResponse)
    (date_ok : jsstr -> bool) (ex : Exercise) (quizId : jsstr) (prefix rest : list SubmittedAnswer)
    (ans : SubmittedAnswer) (pos : nat) (quiz : Quiz) (q : Question) (m : jsstr)
    (t : Q) (r : list AnswerRecord) :
  find_quiz quizId (ex_quiz ex) 0 = Some (pos, quiz) ->
  answers_loop image_endpoint audio_endpoint (quiz_questions quiz) prefix 0 [] = Ok (t, r) ->
  find_question (quiz_questions quiz) (sa_questionId ans) = Some q ->
  transcribe image_endpoint audio_endpoint ans q = Throw m ->
  answer image_endpoint audio_endpoint date_ok (Some ex) quizId (prefix ++ ans :: rest)
  = (RespError 500 m, Some ex)
  /\ (m = js "Gagal memproses gambar." \/ m = js "Gagal memproses audio.").
Proof.
  intros Hq Hp Hf Ht. split; [|exact (transcribe_throw_message _ _ _ _ _ Ht)].
  unfold answer. rewrite Hq, answers_loop_app, Hp. simpl. rewrite Hf, Ht. reflexivity.
Qed.

Lemma answer_aborts_on_transcription_failure_witness :
  answer (endpoint_fixed 100) endpoint_down iso_date_time_format
    (Some (exercise_of [quiz_of "z1" four_questions])) (js "z1")
    ([submission "q1" "image/png"] ++ submission "q2" "audio/mpeg"
       :: [submission "q3" "image/png"])
  = (RespError 500 (js "Gagal memproses audio."),
     Some (exercise_of [quiz_of "z1" four_questions]))
  /\ (js "Gagal memproses audio." = js "Gagal memproses gambar."
      \/ js "Gagal memproses audio." = js "Gagal memproses audio.").
Proof.
  eapply (answer_aborts_on_transcription_failure (endpoint_fixed 100) endpoint_down
            iso_date_time_format (exercise_of [quiz_of "z1" four_questions]) (js "z1")
            [submission "q1" "image/png"] [submission "q3" "image/png"]
            (submission "q2" "audio/mpeg") 0 (quiz_of "z1" four_questions)
            (question_of "q2" "meja") (js "Gagal memproses audio."));
    [vm_compute; reflexivity | vm_compute; reflexivity
    | vm_compute; reflexivity | vm_compute; reflexivity].
Defined.

(** Claim C6, as the code behaves: an answer to a question of the quiz
    whose media type starts with neither [image/] nor [audio/] is not
    skipped; it is recorded with an empty text and similarity 0, adds 0
    to the total, and the loop goes on with the rest of the submission.
    An answer whose [questionId] names no question of the quiz is skipped,
    whatever its media type: the loop goes on with the rest unchanged. *)
Theorem answers_loop_unsupported_media_recorded
    (image_endpoint audio_endpoint : jsstr -> jsstr -> option AIResponse)
    (questions : list Question) (ans : SubmittedAnswer) (rest : list SubmittedAnswer)
    (totalPoints : Q) (recorded : list AnswerRecord) :
  (forall q : Question,
     find_question questions (sa_questionId ans) = Some q ->
     starts_with (js "image/") (sa_fileType ans) = false ->
     starts_with (js "audio/") (sa_fileType ans) = false ->
     answers_loop image_endpoint audio_endpoint questions (ans :: rest) totalPoints recorded
     = answers_loop image_endpoint audio_endpoint questions rest (totalPoints + 0)
         (recorded ++ [{| ar_questionId := sa_questionId ans; ar_file := sa_answer ans;
                          ar_text := []; ar_similarityPoint := 0;
                          ar_timeOpened := sa_timeOpened ans;
                          ar_timeAnswered := sa_timeAnswered ans;
                          ar_duration := sa_duration ans |}])) /\
  (find_question questions (sa_questionId ans) = None ->
   answers_loop image_endpoint audio_endpoint questions (ans :: rest) totalPoints recorded
   = answers_loop image_endpoint audio_endpoint questions rest totalPoints recorded).
Proof.
  split.
  - intros q Hf Hi Ha. simpl. rewrite Hf. unfold transcribe. rewrite Hi, Ha. reflexivity.
  - intros Hf. simpl. rewrite Hf. reflexivity.
Qed.

Lemma answers_loop_unsupported_media_recorded_witness :
  answers_loop (endpoint_fixed 100) endpoint_down four_questions
    (submission "q1" "video/mp4" :: [submission "q3" "image/png"]) 0 []
  = answers_loop (endpoint_fixed 100) endpoint_down four_questions
      [submission "q3" "image/png"] (0 + 0)
      ([] ++ [{| ar_questionId := sa_questionId (submission "q1" "video/mp4");
                 ar_file := sa_answer (submission "q1" "video/mp4");
                 ar_text := []; ar_similarityPoint := 0;
                 ar_timeOpened := sa_timeOpened (submission "q1" "video/mp4");
                 ar_timeAnswered := sa_timeAnswered (submission "q1" "video/mp4");
                 ar_duration := sa_duration (submission "q1" "video/mp4") |}])
  /\ answers_loop (endpoint_fixed 100) endpoint_down four_questions
       (submission "q9" "video/mp4" :: [submission "q3" "image/png"]) 0 []
     = answers_loop (endpoint_fixed 100) endpoint_down four_questions
         [submission "q3" "image/png"] 0 [].
Proof.
  split.
  - apply (proj1 (answers_loop_unsupported_media_recorded (endpoint_fixed 100)
                    endpoint_down four_questions (submission "q1" "video/mp4")
                    [submission "q3" "image/png"] 0 []) (question_of "q1" "buku"));
      vm_compute; reflexivity.
  - apply (proj2 (answers_loop_unsupported_media_recorded (endpoint_fixed 100)
                    endpoint_down four_questions (submission "q9" "video/mp4")
                    [submission "q3" "image/png"] 0 []));
      vm_compute; reflexivity.
Defined.

(** The run of C6's counterexample, for any [Date] cast that accepts its
    two timestamps. *)
Lemma video_answer_recorded_any_date_cast (date_ok : jsstr -> bool) :
  date_ok time_opened = true -> date_ok time_answered = true ->
  match answer (endpoint_fixed 100) endpoint_down date_ok
          (Some (exercise_of [quiz_of "z1" four_questions])) (js "z1")
          [submission "q1" "video/mp4"; submission "q3" "image/png"] with
  | (RespOk ex', _) =>
      map (fun quiz => map (fun a => (ar_questionId a, ar_text a, ar_similarityPoint a))
                         (quiz_answers quiz)) (ex_quiz ex')
      = [[(js "q1", [], 0); (js "q3", js "kursi", 100)]]
  | _ => False
  end.
Proof.
  intros H1 H2. vm_compute in H1, H2 |- *. rewrite H1, H2. vm_compute. reflexivity.
Qed.

(** Claim C6, on the code: a [video/mp4] answer to the first question of
    the quiz is recorded (with similarity 0) rather than skipped.  The
    timestamps are in the ECMAScript Date Time String Format, which every
    engine's [new Date] parses, so [exercise.save()] accepts the document;
    by the lemma above the outcome is the same for every cast accepting
    them, stated here for the ISO format check. *)
Example video_answer_recorded_not_skipped :
  match answer (endpoint_fixed 100) endpoint_down iso_date_time_format
          (Some (exercise_of [quiz_of "z1" four_questions])) (js "z1")
          [submission "q1" "video/mp4"; submission "q3" "image/png"] with
  | (RespOk ex', _) =>
      map (fun quiz => map (fun a => (ar_questionId a, ar_text a, ar_similarityPoint a))
                         (quiz_answers quiz)) (ex_quiz ex')
      = [[(js "q1", [], 0); (js "q3", js "kursi", 100)]]
  | _ => False
  end.
Proof.
  apply video_answer_recorded_any_date_cast; vm_compute; reflexivity.
Qed.

Lemma replace_at_length {A} (n : nat) (x : A) (l : list A) :
  length (replace_at n x l) = length l.
Proof.
  revert n; induction l as [|y l IH]; intros [|n]; simpl; auto.
Qed.

Lemma replace_at_same {A} (n : nat) (x : A) (l : list A) :
  (n < length l)%nat -> nth_error (replace_at n x l) n = Some x.
Proof.
  revert n; induction l as [|y l IH]; intros [|n] H; simpl in *; try lia; auto.
  apply IH. lia.
Qed.

Lemma replace_at_other {A} (n j : nat) (x : A) (l : list A) :
  j <> n -> nth_error (replace_at n x l) j = nth_error l j.
Proof.
  revert n j; induction l as [|y l IH]; intros [|n] [|j] H; simpl; auto; try lia.
Qed.

Lemma find_quiz_nth (quizId : jsstr) (quizzes : list Quiz) (k pos : nat) (quiz : Quiz) :
  find_quiz quizId quizzes k = Some (pos, quiz) ->
  (k <= pos)%nat /\ nth_error quizzes (pos - k) = Some quiz.
Proof.
  revert k; induction quizzes as [|d rest IH]; intros k; simpl; [discriminate|].
  destruct (jsstr_eqb (quiz_id d) quizId).
  - intros H; inversion H; subst. rewrite Nat.sub_diag. split; [lia | reflexivity].
  - intros H. destruct (IH _ H) as [Hle Hn]. split; [lia|].
    replace (pos - k)%nat with (S (pos - S k)) by lia. exact Hn.
Qed.

(** Claim C10: on success the found quiz's answers are rebuilt from the
    submission alone (one record per answer naming a question of the quiz,
    in order, whatever the quiz held before), its questions are kept, and
    every other quiz of the exercise is unchanged. *)
Theorem answer_replaces_quiz_answers
    (image_endpoint audio_endpoint : jsstr -> jsstr -> option AIResponse)
    (date_ok : jsstr -> bool)
    (ex ex' : Exercise) (quizId : jsstr) (answers : list SubmittedAnswer) :
  fst (answer image_endpoint audio_endpoint date_ok (Some ex) quizId answers) = RespOk ex' ->
  snd (answer image_endpoint audio_endpoint date_ok (Some ex) quizId answers) = Some ex'
  /\ exists pos quiz quiz' totalPoints,
       find_quiz quizId (ex_quiz ex) 0 = Some (pos, quiz)
       /\ nth_error (ex_quiz ex) pos = Some quiz
       /\ nth_error (ex_quiz ex') pos = Some quiz'
       /\ answers_loop image_endpoint audio_endpoint (quiz_questions quiz) answers 0 []
          = Ok (totalPoints, quiz_answers quiz')
       /\ map ar_questionId (quiz_answers quiz')
          = map sa_questionId (filter (has_question (quiz_questions quiz)) answers)
       /\ quiz_questions quiz' = quiz_questions quiz
       /\ length (ex_quiz ex') = length (ex_quiz ex)
       /\ (forall j, j <> pos -> nth_error (ex_quiz ex') j = nth_error (ex_quiz ex) j).
Proof.
  unfold answer.
  destruct (find_quiz quizId (ex_quiz ex) 0) as [[pos quiz]|] eqn:Hq; [|discriminate].
  destruct (answers_loop image_endpoint audio_endpoint (quiz_questions quiz) answers 0 [])
    as [[t recorded]|m] eqn:Hl; [|discriminate].
  match goal with |- context [if exercise_valid date_ok ?e then _ else _] =>
    destruct (exercise_valid date_ok e) end; [|discriminate].
  simpl. intros H. inversion H; subst ex'. clear H.
  destruct (find_quiz_nth _ _ _ _ _ Hq) as [_ Hn]. rewrite Nat.sub_0_r in Hn.
  split; [reflexivity|].
  exists pos, quiz,
    (set_answers quiz recorded (quiz_point (quiz_questions quiz) t)), t. simpl.
  split; [reflexivity|]. split; [exact Hn|].
  split; [apply replace_at_same; apply nth_error_Some; congruence|].
  split; [exact Hl|].
  split; [apply (answers_loop_ids _ _ _ _ _ _ _ _ Hl)|].
  split; [reflexivity|].
  split; [apply replace_at_length|].
  intros j Hj. apply replace_at_other. exact Hj.
Qed.

(** The exercise of two quizzes whose first quiz is answered below. *)
Lemma answer_replaces_quiz_answers_witness :
  let ex := exercise_of [quiz_of "z1" four_questions; quiz_of "z2" four_questions] in
  let subm := [submission "q1" "image/png"; submission "q9" "image/png";
               submission "q3" "image/png"] in
  let date_ok := iso_date_time_format in
  let ex' := match fst (answer (endpoint_fixed 100) endpoint_down date_ok (Some ex)
                              (js "z1") subm)
             with RespOk e => e | RespError _ _ => ex end in
  fst (answer (endpoint_fixed 100) endpoint_down date_ok (Some ex) (js "z1") subm)
  = RespOk ex'
  /\ snd (answer (endpoint_fixed 100) endpoint_down date_ok (Some ex) (js "z1") subm)
     = Some ex'.
Proof.
  intros ex subm date_ok ex'.
  assert (H : fst (answer (endpoint_fixed 100) endpoint_down date_ok (Some ex) (js "z1") subm)
              = RespOk ex') by (vm_compute; reflexivity).
  split; [exact H|].
  exact (proj1 (answer_replaces_quiz_answers (endpoint_fixed 100) endpoint_down date_ok
                  ex ex' (js "z1") subm H)).
Defined.

(* ================================================================= *)
(** * Further properties of the code *)

Lemma unit_eqb_true (x y : option ascii) : unit_eqb x y = true <-> x = y.
Proof.
  destruct x as [c|], y as [d|]; simpl; split; intros H; try discriminate; try congruence.
  - apply Ascii.eqb_eq in H. subst. reflexivity.
  - inversion H. apply Ascii.eqb_refl.
Qed.

Lemma count_matches_full (a b : jsstr) (i fuel c : nat) :
  count_matches a b i fuel c = (c + fuel)%nat <->
  (forall j, (i <= j < i + fuel)%nat -> nth_error a j = nth_error b j).
Proof.
  revert i c; induction fuel as [|fuel IH]; intros i c; simpl.
  - split; [intros _ j Hj; lia | intros _; lia].
  - destruct (unit_eqb (nth_error a i) (nth_error b i)) eqn:E.
    + replace (c + S fuel)%nat with (S c + fuel)%nat by lia. rewrite IH. split.
      * intros H j Hj. destruct (Nat.eq_dec j i) as [->|Hne].
        -- apply unit_eqb_true, E.
        -- apply H. lia.
      * intros H j Hj. apply H. lia.
    + split.
      * intros H. pose proof (count_matches_le a b (S i) fuel c). lia.
      * intros H. rewrite (H i) in E by lia. rewrite unit_eqb_refl in E. discriminate.
Qed.

Lemma nth_error_ext_max (a b : jsstr) :
  (forall j, (j < Nat.max (length a) (length b))%nat -> nth_error a j = nth_error b j) ->
  a = b.
Proof.
  revert b; induction a as [|x a IH]; intros [|y b] H; try reflexivity.
  - specialize (H 0%nat). simpl in H. discriminate H. lia.
  - specialize (H 0%nat). simpl in H. discriminate H. lia.
  - pose proof (H 0%nat) as H0. simpl in H0. injection H0 as ->. 2: lia.
    f_equal. apply IH. intros j Hj. apply (H (S j)). simpl. lia.
Qed.

(** The matching count in range reaches the maximum exactly on equal strings. *)
Lemma count_matches_full_iff (a b : jsstr) :
  count_matches a b 0 (Nat.max (length a) (length b)) 0 = Nat.max (length a) (length b)
  <-> a = b.
Proof.
  rewrite <- (Nat.add_0_l (Nat.max _ _)) at 2. rewrite count_matches_full. split.
  - intros H. apply nth_error_ext_max. intros j Hj. apply H. lia.
  - intros <- j _. reflexivity.
Qed.

Lemma ratio_full (c l : nat) :
  inject_Z (Z.of_nat c) / inject_Z (Z.of_nat (S l)) * 100 == 100 <-> c = S l.
Proof.
  rewrite Nat2Z.inj_succ.
  unfold Qeq, Qdiv, Qmult, Qinv, inject_Z; simpl.
  destruct (Z.succ (Z.of_nat l)) eqn:E; [lia| |lia]; simpl.
  split; intros H; [|subst]; lia.
Qed.

(** X1: for two non-empty strings, [calculateCharacterMatchScore] is 100 exactly when the strings are equal after lower-casing and trimming. *)
Theorem score_full_iff_normalized_equal (stringA stringB : jsstr) :
  stringA <> [] -> stringB <> [] ->
  (calculateCharacterMatchScore stringA stringB == 100 <->
   trim (toLowerCase stringA) = trim (toLowerCase stringB)).
Proof.
  intros Ha Hb. unfold calculateCharacterMatchScore.
  destruct stringA as [|x a]; [congruence|]. destruct stringB as [|y b]; [congruence|].
  simpl js_falsy_str; simpl orb. cbv zeta.
  set (u := trim (toLowerCase (x :: a))). set (v := trim (toLowerCase (y :: b))).
  destruct (Nat.max (length u) (length v)) as [|l] eqn:E; simpl Nat.eqb.
  - split; [intros _ | reflexivity].
    assert (length u = 0%nat /\ length v = 0%nat) as [Lu Lv] by lia.
    destruct u, v; simpl in *; congruence.
  - rewrite ratio_full, <- E. apply count_matches_full_iff.
Qed.

Lemma score_full_iff_normalized_equal_witness :
  calculateCharacterMatchScore (js " Buku") (js "buku ") == 100.
Proof.
  apply (score_full_iff_normalized_equal (js " Buku") (js "buku ")); try discriminate.
  vm_compute. reflexivity.
Defined.

Lemma trim_start_head (s : jsstr) (c : ascii) (r : jsstr) :
  trim_start s = c :: r -> is_js_space c = false.
Proof.
  induction s as [|d s IH]; simpl; [discriminate|].
  destruct (is_js_space d) eqn:E; [exact IH|]. intros H. injection H as -> _. exact E.
Qed.

(** [trim s] neither starts nor ends with whitespace. *)
Lemma trim_ends (s : jsstr) (c : ascii) :
  (hd_error (trim s) = Some c \/ hd_error (rev (trim s)) = Some c) -> is_js_space c = false.
Proof.
  unfold trim. set (u := trim_start s). intros [H|H].
  - destruct (trim_start_suffix (rev u)) as [p Hp].
    assert (Hu : u = rev (trim_start (rev u)) ++ rev p).
    { rewrite <- rev_app_distr, <- Hp, rev_involutive. reflexivity. }
    destruct (rev (trim_start (rev u))) as [|d w] eqn:E; [discriminate|].
    simpl in H. injection H as ->. simpl in Hu.
    apply (trim_start_head s c (w ++ rev p)). fold u. exact Hu.
  - rewrite rev_involutive in H.
    destruct (trim_start (rev u)) as [|d w] eqn:E; [discriminate|].
    simpl in H. injection H as ->. apply (trim_start_head _ _ _ E).
Qed.

(** X3: the result of [cleanLLMOutput] neither starts nor ends with a whitespace character. *)
Theorem cleanLLMOutput_no_outer_whitespace (text : jsstr) (c : ascii) :
  hd_error (cleanLLMOutput text) = Some c \/ hd_error (rev (cleanLLMOutput text)) = Some c ->
  is_js_space c = false.
Proof. apply trim_ends. Qed.

Lemma cleanLLMOutput_no_outer_whitespace_witness :
  hd_error (cleanLLMOutput (js " ```json [1] ``` ")) = Some "["%char /\
  is_js_space "["%char = false.
Proof.
  split; [vm_compute; reflexivity|].
  apply (cleanLLMOutput_no_outer_whitespace (js " ```json [1] ``` ")). left.
  vm_compute. reflexivity.
Defined.

Lemma starts_with_self (p q : jsstr) : starts_with p (p ++ q) = true.
Proof. induction p as [|c p IH]; simpl; [reflexivity|]. rewrite Ascii.eqb_refl. exact IH. Qed.

Lemma trim_start_spaces (pre s : jsstr) :
  forallb is_js_space pre = true -> trim_start (pre ++ s) = trim_start s.
Proof.
  induction pre as [|c pre IH]; simpl; [reflexivity|].
  intros H. apply andb_true_iff in H as [-> H]. apply IH, H.
Qed.

Lemma trim_start_nonspace (c : ascii) (s : jsstr) :
  is_js_space c = false -> trim_start (c :: s) = c :: s.
Proof. simpl. intros ->. reflexivity. Qed.

Lemma forallb_rev {A} (f : A -> bool) (l : list A) : forallb f (rev l) = forallb f l.
Proof.
  induction l as [|x l IH]; simpl; [reflexivity|].
  rewrite forallb_app, IH. simpl. rewrite andb_true_r, andb_comm. reflexivity.
Qed.

(** Whitespace around a trimmed string is what [trim] removes. *)
Lemma trim_pad (pre body post : jsstr) :
  trim body = body -> forallb is_js_space pre = true -> forallb is_js_space post = true ->
  trim (pre ++ body ++ post) = body.
Proof.
  intros Hb Hpre Hpost. unfold trim. rewrite trim_start_spaces by exact Hpre.
  destruct body as [|c r] eqn:Eb.
  - simpl. rewrite <- (app_nil_r post), trim_start_spaces by exact Hpost. reflexivity.
  - assert (Hc : is_js_space c = false) by (apply (trim_ends (c :: r)); left; rewrite Hb; reflexivity).
    rewrite <- app_comm_cons, trim_start_nonspace by exact Hc.
    rewrite app_comm_cons, rev_app_distr, trim_start_spaces by (rewrite forallb_rev; exact Hpost).
    destruct (rev (c :: r)) as [|d w] eqn:Er; [simpl in Er; destruct (rev r); discriminate|].
    assert (Hd : is_js_space d = false).
    { apply (trim_ends (c :: r)); right. rewrite Hb, Er. reflexivity. }
    rewrite trim_start_nonspace by exact Hd. rewrite <- Er. apply rev_involutive.
Qed.

Lemma trim_between (c d : ascii) (m : jsstr) :
  is_js_space c = false -> is_js_space d = false -> trim (c :: m ++ [d]) = c :: m ++ [d].
Proof.
  intros Hc Hd. unfold trim. rewrite trim_start_nonspace by exact Hc.
  rewrite app_comm_cons, rev_unit, trim_start_nonspace by exact Hd.
  change (rev (d :: rev (c :: m))) with (rev (rev (c :: m)) ++ [d]).
  rewrite rev_involutive. reflexivity.
Qed.

(** The part of [cleanLLMOutput] after the leading fences: a newline, the
    body, a newline and the closing fence. *)
Lemma clean_after_opening_fence (body : jsstr) :
  trim body = body ->
  let inner := [lf] ++ body ++ [lf] in
  trim (strip_preamble (replace_trailing fence (replace_leading fence (inner ++ fence)))) = body.
Proof.
  intros Hb inner.
  unfold replace_leading. simpl starts_with. cbv iota.
  unfold replace_trailing, ends_with. rewrite rev_app_distr, starts_with_self.
  rewrite length_app, Nat.add_sub, firstn_app, Nat.sub_diag, firstn_all. simpl firstn.
  rewrite app_nil_r.
  unfold strip_preamble, preamble_rest. simpl ci_prefix. cbv iota.
  apply trim_pad; [exact Hb | reflexivity | reflexivity].
Qed.

(** X4: a trimmed body between a json fence (or a bare fence) on its own line and a closing fence on its own line comes out of [cleanLLMOutput] as the body itself. *)
Theorem cleanLLMOutput_unwraps_fenced_block (body : jsstr) :
  trim body = body ->
  cleanLLMOutput (fence_json ++ [lf] ++ body ++ [lf] ++ fence) = body /\
  cleanLLMOutput (fence ++ [lf] ++ body ++ [lf] ++ fence) = body.
Proof.
  intros Hb. split.
  - unfold cleanLLMOutput.
    replace (fence_json ++ [lf] ++ body ++ [lf] ++ fence)
      with ("`"%char :: (js "``json" ++ [lf] ++ body ++ [lf] ++ js "``") ++ ["`"%char])
      by (simpl; rewrite <- ?app_assoc; reflexivity).
    rewrite trim_between by reflexivity.
    replace ("`"%char :: (js "``json" ++ [lf] ++ body ++ [lf] ++ js "``") ++ ["`"%char])
      with (fence_json ++ ([lf] ++ body ++ [lf]) ++ fence)
      by (simpl; rewrite <- ?app_assoc; reflexivity).
    unfold replace_leading at 2. rewrite starts_with_self.
    replace (skipn (length fence_json) (fence_json ++ ([lf] ++ body ++ [lf]) ++ fence))
      with (([lf] ++ body ++ [lf]) ++ fence) by reflexivity.
    apply clean_after_opening_fence, Hb.
  - unfold cleanLLMOutput.
    replace (fence ++ [lf] ++ body ++ [lf] ++ fence)
      with ("`"%char :: (js "``" ++ [lf] ++ body ++ [lf] ++ js "``") ++ ["`"%char])
      by (simpl; rewrite <- ?app_assoc; reflexivity).
    rewrite trim_between by reflexivity.
    replace ("`"%char :: (js "``" ++ [lf] ++ body ++ [lf] ++ js "``") ++ ["`"%char])
      with (fence ++ ([lf] ++ body ++ [lf]) ++ fence)
      by (simpl; rewrite <- ?app_assoc; reflexivity).
    unfold replace_leading at 2. simpl starts_with. cbv iota.
    unfold replace_leading at 1. rewrite starts_with_self.
    replace (skipn (length fence) (fence ++ ([lf] ++ body ++ [lf]) ++ fence))
      with (([lf] ++ body ++ [lf]) ++ fence) by reflexivity.
    apply clean_after_opening_fence, Hb.
Qed.

Lemma cleanLLMOutput_unwraps_fenced_block_witness :
  cleanLLMOutput (fence_json ++ [lf] ++ js "[1, 2]" ++ [lf] ++ fence) = js "[1, 2]" /\
  cleanLLMOutput (fence ++ [lf] ++ js "[1, 2]" ++ [lf] ++ fence) = js "[1, 2]".
Proof. apply cleanLLMOutput_unwraps_fenced_block. vm_compute. reflexivity. Defined.

Lemma lazy_until_colon_app (header rest : jsstr) :
  forallb (fun c => negb (Ascii.eqb c ":"%char) && negb (is_line_terminator c)) header = true ->
  lazy_until_colon (header ++ ":"%char :: rest) = Some rest.
Proof.
  induction header as [|c header IH]; simpl; [reflexivity|].
  intros H. apply andb_true_iff in H as [Hc H]. apply andb_true_iff in Hc as [H1 H2].
  apply negb_true_iff in H1, H2. rewrite H1, H2. apply IH, H.
Qed.

Lemma ends_with_last (p s : jsstr) (c d : ascii) :
  Ascii.eqb c d = false -> ends_with (p ++ [c]) (s ++ [d]) = false.
Proof. intros H. unfold ends_with. rewrite !rev_unit. simpl. rewrite H. reflexivity. Qed.

(** The steps of [cleanLLMOutput] after the first [trim], on a text that
    starts with a ["Here is ...:"] preamble and does not end with a fence. *)
Lemma clean_preamble_steps (header rest : jsstr) :
  forallb (fun c => negb (Ascii.eqb c ":"%char) && negb (is_line_terminator c)) header = true ->
  let s := js "Here is" ++ header ++ ":"%char :: rest in
  ends_with fence s = false ->
  strip_preamble (replace_trailing fence (replace_leading fence (replace_leading fence_json s)))
  = rest.
Proof.
  intros Hh s He.
  unfold replace_leading. simpl starts_with. cbv iota.
  unfold replace_trailing. rewrite He.
  unfold strip_preamble, preamble_rest. unfold s. simpl ci_prefix.
  cbv iota. rewrite lazy_until_colon_app by exact Hh. reflexivity.
Qed.

(** X5: a text [Here is ...:] followed by a newline and a trimmed body that does not end in a backquote comes out of [cleanLLMOutput] as the body. *)
Theorem cleanLLMOutput_drops_preamble (header body : jsstr) :
  forallb (fun c => negb (Ascii.eqb c ":"%char) && negb (is_line_terminator c)) header = true ->
  trim body = body ->
  hd_error (rev body) <> Some "`"%char ->
  cleanLLMOutput (js "Here is" ++ header ++ [":"%char; lf] ++ body) = body.
Proof.
  intros Hh Hb Hl. unfold cleanLLMOutput.
  destruct (rev body) as [|d w] eqn:Er.
  - assert (body = []) as -> by (destruct body; [reflexivity|]; simpl in Er;
                                   destruct (rev body); discriminate).
    rewrite app_nil_r.
    replace (js "Here is" ++ header ++ [":"%char; lf])
      with ([] ++ (js "Here is" ++ header ++ [":"%char]) ++ [lf])
      by (simpl; rewrite <- ?app_assoc; reflexivity).
    rewrite trim_pad; [| | reflexivity | reflexivity].
    + rewrite clean_preamble_steps; [reflexivity | exact Hh |].
      rewrite app_assoc. apply (ends_with_last (js "``") _ "`"%char). reflexivity.
    + replace (js "Here is" ++ header ++ [":"%char])
        with ("H"%char :: (js "ere is" ++ header) ++ [":"%char])
        by (simpl; rewrite <- ?app_assoc; reflexivity).
      apply trim_between; reflexivity.
  - assert (Hd : is_js_space d = false) by (apply (trim_ends body); right; rewrite Hb, Er; reflexivity).
    assert (Hbody : body = rev w ++ [d]) by (rewrite <- (rev_involutive body), Er; reflexivity).
    set (text := js "Here is" ++ header ++ [":"%char; lf] ++ body).
    assert (Ht : trim text = text).
    { unfold text. rewrite Hbody.
      replace (js "Here is" ++ header ++ [":"%char; lf] ++ rev w ++ [d])
        with ("H"%char :: (js "ere is" ++ header ++ [":"%char; lf] ++ rev w) ++ [d])
        by (simpl; rewrite <- ?app_assoc; reflexivity).
      apply trim_between; [reflexivity | exact Hd]. }
    rewrite Ht. unfold text.
    change ([":"%char; lf] ++ body) with (":"%char :: (lf :: body)).
    rewrite clean_preamble_steps; [| exact Hh |].
    + rewrite <- (app_nil_r body) at 1. apply (trim_pad [lf] body []); [exact Hb | reflexivity | reflexivity].
    + rewrite Hbody.
      replace (js "Here is" ++ header ++ ":"%char :: lf :: rev w ++ [d])
        with ((js "Here is" ++ header ++ ":"%char :: lf :: rev w) ++ [d])
        by (rewrite <- ?app_assoc; reflexivity).
      apply (ends_with_last (js "``") _ "`"%char).
      destruct (Ascii.eqb "`"%char d) eqn:E; [|reflexivity].
      apply Ascii.eqb_eq in E. subst d. exfalso. apply Hl. reflexivity.
Qed.

Lemma cleanLLMOutput_drops_preamble_witness :
  cleanLLMOutput (js "Here is the quiz you asked for" ++ [":"%char; lf] ++ js "[1, 2]")
  = js "[1, 2]".
Proof.
  apply cleanLLMOutput_drops_preamble; vm_compute; [reflexivity | reflexivity | discriminate].
Defined.

(** A failed attempt: the call rejects, or the body has no [response]. *)
Lemma generate_loop_skip {json : Type} (JSON_parse : jsstr -> option json)
    (endpoint : nat -> LLMReply) (i k fuel : nat) :
  (forall j, (i <= j < i + k)%nat -> endpoint j = ReplyError \/ endpoint j = ReplyOk None) ->
  (k <= fuel)%nat ->
  generate_loop json JSON_parse endpoint i fuel
  = generate_loop json JSON_parse endpoint (i + k) (fuel - k).
Proof.
  revert i fuel; induction k as [|k IH]; intros i fuel Hf Hk.
  - rewrite Nat.add_0_r, Nat.sub_0_r. reflexivity.
  - destruct fuel as [|fuel]; [lia|]. simpl.
    destruct (Hf i ltac:(lia)) as [E|E]; rewrite E;
      rewrite IH by (try (intros; apply Hf); lia); f_equal; lia.
Qed.

(** X6: when each of the [retries] attempts is rejected or has no [response] field, [generateLLM] makes exactly [retries] calls and ends in the exhaustion error. *)
Theorem generateLLM_exhausted_after_failed_attempts {json : Type}
    (JSON_parse : jsstr -> option json) (endpoint : nat -> LLMReply) (retries : nat) :
  (forall j, (j < retries)%nat -> endpoint j = ReplyError \/ endpoint j = ReplyOk None) ->
  generateLLM json JSON_parse endpoint retries = (GenExhausted, retries).
Proof.
  intros Hf. unfold generateLLM.
  rewrite (generate_loop_skip JSON_parse endpoint 0 retries retries) by (try (intros; apply Hf); lia).
  rewrite Nat.sub_diag. reflexivity.
Qed.

Lemma generateLLM_exhausted_after_failed_attempts_witness :
  generateLLM_default JSONText.value JSONText.parse
    (fun j => if Nat.eqb j 1 then ReplyOk None else ReplyError)
  = (GenExhausted, 3%nat).
Proof.
  apply generateLLM_exhausted_after_failed_attempts.
  intros j Hj. destruct j as [|[|[|j]]]; [left | right | left | lia]; reflexivity.
Defined.

(** X7: when attempt [k] is the first that yields a [response], [generateLLM] stops after [k+1] calls and returns the parse of the cleaned response. *)
Theorem generateLLM_returns_first_reply {json : Type}
    (JSON_parse : jsstr -> option json) (endpoint : nat -> LLMReply)
    (retries k : nat) (raw : jsstr) :
  (k < retries)%nat ->
  (forall j, (j < k)%nat -> endpoint j = ReplyError \/ endpoint j = ReplyOk None) ->
  endpoint k = ReplyOk (Some raw) ->
  generateLLM json JSON_parse endpoint retries
  = (GenReturned (JSON_parse (cleanLLMOutput raw)), S k).
Proof.
  intros Hk Hf Hr. unfold generateLLM.
  rewrite (generate_loop_skip JSON_parse endpoint 0 k retries) by (try (intros; apply Hf); lia).
  destruct (retries - k)%nat as [|n] eqn:E; [lia|].
  simpl. rewrite Hr. reflexivity.
Qed.

Lemma generateLLM_returns_first_reply_witness :
  generateLLM_default JSONText.value JSONText.parse
    (fun j => if Nat.eqb j 2 then ReplyOk (Some (js "```json [] ```")) else ReplyError)
  = (GenReturned (Some (JSONText.JArray [])), 3%nat).
Proof.
  unfold generateLLM_default.
  rewrite (generateLLM_returns_first_reply JSONText.parse _ 3 2 (js "```json [] ```")).
  - vm_compute. reflexivity.
  - lia.
  - intros j Hj. left. destruct j as [|[|j]]; [reflexivity | reflexivity | lia].
  - reflexivity.
Defined.

Lemma jsstr_eqb_true (a b : jsstr) : jsstr_eqb a b = true <-> a = b.
Proof. split; [apply jsstr_eqb_eq | intros ->; apply jsstr_eqb_refl]. Qed.

Lemma find_set_other (k v p : jsstr) (o : JSObject) :
  jsstr_eqb k p = false ->
  find (fun kv => jsstr_eqb (fst kv) p)
       (map (fun kv => if jsstr_eqb (fst kv) k then (k, v) else kv) o)
  = find (fun kv => jsstr_eqb (fst kv) p) o.
Proof.
  intros Hkp. induction o as [|[k' v'] o IH]; simpl; [reflexivity|].
  destruct (jsstr_eqb k' k) eqn:E1; simpl.
  - apply jsstr_eqb_true in E1. subst k'. rewrite Hkp. exact IH.
  - destruct (jsstr_eqb k' p); [reflexivity | exact IH].
Qed.

Lemma obj_get_set (k v p : jsstr) (o : JSObject) :
  obj_get p (obj_set k v o) = if jsstr_eqb k p then Some v else obj_get p o.
Proof.
  unfold obj_get, obj_set.
  destruct (existsb (fun kv => jsstr_eqb (fst kv) k) o) eqn:Ex.
  - destruct (jsstr_eqb k p) eqn:Ekp; [|rewrite find_set_other by exact Ekp; reflexivity].
    apply jsstr_eqb_true in Ekp. subst p.
    induction o as [|[k' v'] o IH]; simpl in *; [discriminate|].
    destruct (jsstr_eqb k' k) eqn:E1; simpl.
    + rewrite jsstr_eqb_refl. reflexivity.
    + rewrite E1. apply IH, Ex.
  - induction o as [|[k' v'] o IH]; simpl in *.
    + destruct (jsstr_eqb k p); reflexivity.
    + apply orb_false_iff in Ex as [E1 Ex].
      destruct (jsstr_eqb k' p) eqn:E2; simpl.
      * apply jsstr_eqb_true in E2. subst k'. destruct (jsstr_eqb k p) eqn:E3; [|reflexivity].
        apply jsstr_eqb_true in E3. subst. rewrite jsstr_eqb_refl in E1. discriminate.
      * apply IH, Ex.
Qed.

(** The [reduce] over [Object.values(error.errors)]: a later validator error
    with the same path overwrites an earlier one. *)
Lemma obj_get_fold (errs : list ValidatorError) (o : JSObject) (p : jsstr) :
  obj_get p (fold_left (fun acc err => obj_set (ve_path err) (ve_message err) acc) errs o)
  = match find (fun e => jsstr_eqb (ve_path e) p) (rev errs) with
    | Some e => Some (ve_message e)
    | None => obj_get p o
    end.
Proof.
  induction errs as [|e errs IH] using rev_ind; simpl; [reflexivity|].
  rewrite fold_left_app, rev_unit. simpl. rewrite obj_get_set.
  destruct (jsstr_eqb (ve_path e) p); [reflexivity | exact IH].
Qed.

(** X8: for an error with validator errors, [errorHandling] answers 422 with an object mapping each path to the message of its last validator error, over the duplicate-key entry. *)
Theorem errorHandling_validation_errors (error : CaughtError) (errs : list ValidatorError)
    (dup : JSObject) :
  ce_errors error = Some errs ->
  duplicate_key_errors error = Ok dup ->
  exists errors,
    errorHandling error = Ok (ValidationErrorResponse errors) /\
    forall p, obj_get p errors
              = match find (fun e => jsstr_eqb (ve_path e) p) (rev errs) with
                | Some e => Some (ve_message e)
                | None => obj_get p dup
                end.
Proof.
  intros He Hd. unfold errorHandling. rewrite Hd, He.
  eexists. split; [reflexivity|]. intros p. apply obj_get_fold.
Qed.

Lemma errorHandling_validation_errors_witness :
  let error := {| ce_code := Some 11000%Z; ce_keyValue := Some [js "email"];
                  ce_errors := Some [ {| ve_path := js "name"; ve_message := js "first" |};
                                      {| ve_path := js "name"; ve_message := js "second" |} ];
                  ce_message := js "E11000" |} in
  exists errors,
    errorHandling error = Ok (ValidationErrorResponse errors) /\
    obj_get (js "name") errors = Some (js "second") /\
    obj_get (js "email") errors = Some (js "The email has already been taken").
Proof.
  intros error.
  destruct (errorHandling_validation_errors error
              [ {| ve_path := js "name"; ve_message := js "first" |};
                {| ve_path := js "name"; ve_message := js "second" |} ]
              (obj_set (js "email") (js "The email has already been taken") [])
              eq_refl eq_refl) as [errors [H1 H2]].
  exists errors. split; [exact H1|]. rewrite !H2. split; reflexivity.
Defined.

(** X9: a duplicate-key error without [keyValue] makes [errorHandling] itself throw; an error without validator errors that is not a duplicate-key error with [keyValue] gives the 500 response with its message. *)
Theorem errorHandling_server_error_or_throw (error : CaughtError) :
  (ce_code error = Some 11000%Z -> ce_keyValue error = None ->
   errorHandling error = Throw (js "Cannot convert undefined or null to object")) /\
  (ce_errors error = None ->
   ce_code error <> Some 11000%Z \/ ce_keyValue error <> None ->
   errorHandling error = Ok (ServerErrorResponse (ce_message error))).
Proof.
  unfold errorHandling, duplicate_key_errors. split.
  - intros -> ->. reflexivity.
  - intros He Hk. rewrite He.
    destruct (ce_code error) as [c|]; [|reflexivity].
    destruct (c =? 11000)%Z eqn:Ec; [|reflexivity].
    apply Z.eqb_eq in Ec. subst c.
    destruct (ce_keyValue error) as [keys|]; [reflexivity|].
    destruct Hk as [Hk|Hk]; congruence.
Qed.

Lemma display_question_key (q : Question) :
  q_key (Exercises.display_question q) = q_key q.
Proof. unfold Exercises.display_question. destruct (_ && _); reflexivity. Qed.

Lemma display_quiz_keys (qu : Quiz) :
  map q_key (quiz_questions (Exercises.display_quiz qu)) = map q_key (quiz_questions qu).
Proof.
  simpl. rewrite map_map. apply map_ext. apply display_question_key.
Qed.

Lemma filter_map_display (f : bool -> bool) (l : list Quiz) :
  filter (fun d => f (quiz_isHidden d)) (map Exercises.display_quiz l)
  = map Exercises.display_quiz (filter (fun d => f (quiz_isHidden d)) l).
Proof.
  induction l as [|qu l IH]; simpl; [reflexivity|].
  destruct (f (quiz_isHidden qu)); simpl; rewrite IH; reflexivity.
Qed.


(** X10: [show] and [quiz] return the stored quizzes (filtered by [isHidden] in [show] when [hidden] is given) with their question keys, and [quiz] fails with 400 Quiz not found exactly when no quiz has the id. *)
Theorem show_and_quiz_serve_keys (ex : Exercise) (hidden : option jsstr) (quizId : jsstr) :
  (exists data,
     Exercises.show (Some ex) hidden = RespOk data /\
     map quiz_keys (ex_quiz data)
     = map quiz_keys
         (match hidden with
          | None => ex_quiz ex
          | Some h =>
              filter (fun qu => Bool.eqb (quiz_isHidden qu) (jsstr_eqb h (js "true"))) (ex_quiz ex)
          end)) /\
  match Exercises.quiz (Some ex) quizId with
  | Exercises.QuizOk qu' =>
      exists pos qu, find_quiz quizId (ex_quiz ex) 0 = Some (pos, qu) /\
                     quiz_keys qu' = quiz_keys qu
  | Exercises.QuizError status message =>
      find_quiz quizId (ex_quiz ex) 0 = None /\ status = 400%Z /\ message = js "Quiz not found"
  end.
Proof.
  split.
  - eexists. split; [reflexivity|]. simpl.
    destruct hidden as [h|]; simpl.
    + rewrite (filter_map_display (fun b => Bool.eqb b (jsstr_eqb h (js "true")))).
      rewrite map_map. apply map_ext. intros qu. unfold quiz_keys. rewrite display_quiz_keys.
      reflexivity.
    + rewrite map_map. apply map_ext. intros qu. unfold quiz_keys. rewrite display_quiz_keys.
      reflexivity.
  - simpl. destruct (find_quiz quizId (ex_quiz ex) 0) as [[pos qu]|].
    + exists pos, qu. split; [reflexivity|]. unfold quiz_keys. rewrite display_quiz_keys.
      reflexivity.
    + split; [reflexivity | split; reflexivity].
Qed.

Lemma find_quiz_replace (quizId : jsstr) (l : list Quiz) (k pos : nat) (q q' : Quiz) :
  find_quiz quizId l k = Some (pos, q) -> quiz_id q' = quiz_id q ->
  find_quiz quizId (replace_at (pos - k) q' l) k = Some (pos, q').
Proof.
  revert k; induction l as [|d rest IH]; intros k H Hid; simpl in H; [discriminate|].
  destruct (jsstr_eqb (quiz_id d) quizId) eqn:E.
  - inversion H; subst. rewrite Nat.sub_diag. simpl. rewrite Hid, E. reflexivity.
  - destruct (find_quiz_nth _ _ _ _ _ H) as [Hle _].
    replace (pos - k)%nat with (S (pos - S k)) by lia. simpl. rewrite E.
    apply IH; assumption.
Qed.

Lemma replace_at_twice {A} (n : nat) (x y : A) (l : list A) :
  replace_at n x (replace_at n y l) = replace_at n x l.
Proof.
  revert n; induction l as [|z l IH]; intros [|n]; simpl; try reflexivity. rewrite IH. reflexivity.
Qed.

Lemma replace_at_nth {A} (n : nat) (x : A) (l : list A) :
  nth_error l n = Some x -> replace_at n x l = l.
Proof.
  revert n; induction l as [|z l IH]; intros [|n] H; simpl in *; try discriminate.
  - inversion H. reflexivity.
  - rewrite (IH _ H). reflexivity.
Qed.

(** X11: a successful [visibilty] call is made by a teacher and sets [isHidden] to the negation of its stored value; a second call succeeds and brings the quizzes back to the stored ones. *)
Theorem visibilty_toggles_back (role : Z) (ex ex' : Exercise) (quizId : jsstr) (b : bool) :
  Exercises.visibilty role (Some ex) quizId = (Exercises.VisibilityOk b, Some ex') ->
  role = 1%Z /\
  (exists pos qu, find_quiz quizId (ex_quiz ex) 0 = Some (pos, qu) /\
                  b = negb (quiz_isHidden qu)) /\
  exists ex'', Exercises.visibilty role (Some ex') quizId = (Exercises.VisibilityOk (negb b), Some ex'')
              /\ ex_quiz ex'' = ex_quiz ex.
Proof.
  unfold Exercises.visibilty.
  destruct (role =? 1)%Z eqn:Er; simpl negb; cbv iota; [|discriminate].
  destruct (find_quiz quizId (ex_quiz ex) 0) as [[pos qu]|] eqn:Hq; [|discriminate].
  intros H. inversion H; subst b ex'. clear H.
  split; [apply Z.eqb_eq, Er|]. split; [exists pos, qu; split; reflexivity|].
  pose proof (find_quiz_replace quizId (ex_quiz ex) 0 pos qu
                (Exercises.set_hidden qu (negb (quiz_isHidden qu))) Hq eq_refl) as Hq'.
  rewrite Nat.sub_0_r in Hq'. simpl. rewrite Hq'.
  destruct (find_quiz_nth _ _ _ _ _ Hq) as [_ Hn]. rewrite Nat.sub_0_r in Hn.
  rewrite replace_at_twice.
  replace (Exercises.set_hidden (Exercises.set_hidden qu (negb (quiz_isHidden qu)))
             (negb (quiz_isHidden (Exercises.set_hidden qu (negb (quiz_isHidden qu))))))
    with qu by (destruct qu; simpl; rewrite Bool.negb_involutive; reflexivity).
  rewrite (replace_at_nth _ _ _ Hn). eexists. split; [reflexivity|]. reflexivity.
Qed.

Lemma visibilty_toggles_back_witness :
  let ex := exercise_of [quiz_of "z1" four_questions; quiz_of "z2" four_questions] in
  let ex' := match snd (Exercises.visibilty 1 (Some ex) (js "z2")) with
             | Some e => e | None => ex end in
  exists ex'', Exercises.visibilty 1 (Some ex') (js "z2") = (Exercises.VisibilityOk false, Some ex'')
              /\ ex_quiz ex'' = ex_quiz ex.
Proof.
  intros ex ex'.
  exact (proj2 (proj2 (visibilty_toggles_back 1 ex ex' (js "z2") true
                         ltac:(vm_compute; reflexivity)))).
Defined.


Lemma split_on_no_sep (s : jsstr) : no_slash s = true -> split_on "/"%char s = [s].
Proof.
  unfold no_slash. induction s as [|c s IH]; simpl; [reflexivity|].
  intros H. apply andb_true_iff in H as [Hc H]. apply negb_true_iff in Hc.
  rewrite Hc, IH by exact H. reflexivity.
Qed.

Lemma split_on_app_sep (w s : jsstr) :
  no_slash w = true -> split_on "/"%char (w ++ "/"%char :: s) = w :: split_on "/"%char s.
Proof.
  unfold no_slash. induction w as [|c w IH]; simpl; [reflexivity|].
  intros H. apply andb_true_iff in H as [Hc H]. apply negb_true_iff in Hc.
  rewrite Hc, IH by exact H. reflexivity.
Qed.

Lemma split_on_pieces (s w : jsstr) : In w (split_on "/"%char s) -> no_slash w = true.
Proof.
  unfold no_slash. revert w; induction s as [|c s IH]; intros w; simpl.
  - intros [<-|[]]. reflexivity.
  - destruct (Ascii.eqb c "/"%char) eqn:Ec.
    + intros [<-|H]; [reflexivity | apply IH, H].
    + destruct (split_on "/"%char s) as [|w0 ws] eqn:Es.
      * intros [<-|[]]. simpl. rewrite Ec. reflexivity.
      * intros [<-|H].
        -- simpl. rewrite Ec. apply IH. left. reflexivity.
        -- apply IH. right. exact H.
Qed.

Lemma last_in_or_default {A} (l : list A) (d : A) : last l d = d \/ In (last l d) l.
Proof.
  induction l as [|x l IH]; [left; reflexivity|].
  destruct l as [|y l]; [right; left; reflexivity|].
  destruct IH as [H|H]; [left; exact H | right; right; exact H].
Qed.

Lemma with_png_last_segment_no_slash (s : jsstr) : no_slash (with_png (last_segment s)) = true.
Proof.
  assert (H : no_slash (last_segment s) = true).
  { unfold last_segment. destruct (last_in_or_default (split_on "/"%char s) []) as [H|H].
    - rewrite H. reflexivity.
    - apply (split_on_pieces s), H. }
  unfold with_png. destruct (ends_with _ _); [exact H|].
  unfold no_slash in *. rewrite forallb_app, H. reflexivity.
Qed.

Lemma third_segment_under (dir1 dir2 n : jsstr) :
  no_slash dir1 = true -> no_slash dir2 = true -> no_slash n = true ->
  third_segment (dir1 ++ "/"%char :: dir2 ++ "/"%char :: n) = n.
Proof.
  intros H1 H2 H3. unfold third_segment.
  rewrite split_on_app_sep, split_on_app_sep, split_on_no_sep by assumption. reflexivity.
Qed.

Lemma generate_filter_path_value (method quantity : JSVal) (images : list jsstr)
    (parsedQuestions ys : list GenItem) (y : GenItem) :
  generate_filter method quantity images parsedQuestions = Ok ys ->
  In y ys -> is_path y = true ->
  exists n, no_slash n = true /\ gq_value (gi_question y) = js "image/exercise/" ++ n.
Proof.
  intros Hg Hy Hp. destruct (generate_filter_from_serving _ _ _ _ _ _ Hg Hy) as [x [_ ->]].
  rewrite to_serving_path_is_path in Hp. unfold to_serving_path. rewrite Hp. simpl.
  eexists. split; [apply with_png_last_segment_no_slash | reflexivity].
Qed.

(** X12: an image question kept by [generate] and then stored by the bank step of [storeExerciseQuiz] is served by [show] with the same question value. *)
Theorem generated_image_served_after_store (saveBase64Image : jsstr -> option jsstr)
    (method quantity : JSVal) (images : list jsstr) (parsedQuestions ys : list GenItem)
    (y : GenItem) (bank bank' : Bank) (sq : StoredQuestion) (id : jsstr) (m : Q) :
  generate_filter method quantity images parsedQuestions = Ok ys ->
  In y ys ->
  is_path y = true ->
  bank_insert saveBase64Image bank
    {| si_method := gi_method y; si_question := gq_value (gi_question y);
       si_key := gi_key y |} = (bank', Some sq) ->
  exists v, sq_qvalue sq = Some v /\
    q_qvalue (Exercises.display_question
                {| q_id := id; q_method := m; q_code := sq_code sq;
                   q_qtype := sq_qtype sq; q_qvalue := v; q_key := sq_key sq |})
    = gq_value (gi_question y).
Proof.
  intros Hg Hy Hp Hb.
  destruct (generate_filter_path_value _ _ _ _ _ _ Hg Hy Hp) as [n [Hn Hv]].
  set (item := {| si_method := gi_method y; si_question := gq_value (gi_question y);
                  si_key := gi_key y |}) in Hb.
  unfold bank_insert in Hb.
  destruct (question_type item) as [t|msg] eqn:Hty; [|discriminate].
  assert (Hs : sq_qvalue sq = snd (question_values saveBase64Image t item) /\
               sq_qtype sq = qtype_tag t).
  { destruct (question_values saveBase64Image t item) as [qVal qSave].
    destruct (bank_findOne _ bank); [inversion Hb; split; reflexivity|].
    destruct (bank_save _ bank); inversion Hb; split; reflexivity. }
  destruct Hs as [Hq Ht].
  unfold question_type in Hty. unfold question_values in Hq. unfold item in Hq, Hty.
  cbv beta iota delta [si_question si_method] in Hq, Hty.
  rewrite Hv in Hq, Hty |- *.
  assert (Hhex : isHexColor (js "image/exercise/" ++ n) = false) by reflexivity.
  assert (Hb64 : isBase64DataURL (js "image/exercise/" ++ n) = false) by reflexivity.
  assert (H3 : forall d1 d2, no_slash d1 = true -> no_slash d2 = true ->
                 third_segment (d1 ++ "/"%char :: d2 ++ "/"%char :: n) = n)
    by (intros; apply third_segment_under; assumption).
  rewrite Hhex in Hty.
  destruct (loose_eq (gi_method y) (JSNum (NumFin 5))) as [[|]|msg];
    inversion Hty; subst t; clear Hty; cbv beta iota zeta delta [snd] in Hq.
  - rewrite Hb64 in Hq. cbv beta iota zeta delta [snd] in Hq.
    change (js "image/exercise/" ++ n)
      with (js "image" ++ "/"%char :: js "exercise" ++ "/"%char :: n) in Hq.
    rewrite (H3 (js "image") (js "exercise")) in Hq by reflexivity.
    exists (js "storage/exercise/" ++ n). split; [exact Hq|].
    unfold Exercises.display_question. cbv beta iota delta [q_qtype q_qvalue].
    rewrite Ht. simpl qtype_tag. simpl js_falsy_str. cbv beta iota.
    change (js "storage/exercise/" ++ n)
      with (js "storage" ++ "/"%char :: js "exercise" ++ "/"%char :: n).
    rewrite (H3 (js "storage") (js "exercise")) by reflexivity. reflexivity.
  - eexists. split; [exact Hq|].
    unfold Exercises.display_question. cbv beta iota delta [q_qtype q_qvalue].
    rewrite Ht. reflexivity.
Qed.

Lemma generated_image_served_after_store_witness :
  let x := {| gi_method := JSNum (NumFin 5);
              gi_question := {| gq_type := js "path"; gq_value := js "storage/exercise/kucing" |};
              gi_key := js "kucing" |} in
  let y := to_serving_path x in
  let item := {| si_method := JSNum (NumFin 5); si_question := js "image/exercise/kucing.png";
                 si_key := js "kucing" |} in
  let code := question_code_of no_upload QPath item in
  let bank := [ {| be_level := Some 1; be_method := JSNum (NumFin 5); be_code := code;
                   be_key := js "kucing"; be_qtype := js "path";
                   be_qvalue := Some (js "storage/exercise/kucing.png") |} ] in
  let sq := {| sq_method := JSNum (NumFin 5); sq_code := code; sq_key := js "kucing";
               sq_qtype := js "path"; sq_qvalue := Some (js "storage/exercise/kucing.png") |} in
  exists v, sq_qvalue sq = Some v /\
    q_qvalue (Exercises.display_question
                {| q_id := js "q1"; q_method := 5; q_code := sq_code sq;
                   q_qtype := sq_qtype sq; q_qvalue := v; q_key := sq_key sq |})
    = gq_value (gi_question y).
Proof.
  intros x y item code bank sq.
  apply (generated_image_served_after_store no_upload (JSNum (NumFin 0)) (JSNum (NumFin 1))
           listImages [x] [y] y bank bank sq (js "q1") 5).
  - vm_compute. reflexivity.
  - left. reflexivity.
  - vm_compute. reflexivity.
  - vm_compute. reflexivity.
Defined.

Lemma find_map_preserving {A} (p : A -> bool) (g : A -> A) (l : list A) :
  (forall u, p (g u) = p u) -> find p (map g l) = option_map g (find p l).
Proof.
  intros Hp. induction l as [|u l IH]; simpl; [reflexivity|].
  rewrite Hp. destruct (p u); [reflexivity | exact IH].
Qed.

Lemma nodup_same_id (l : Childs.Users) (u v : Childs.User) :
  NoDup (map Childs.u_id l) -> In u l -> In v l -> Childs.u_id u = Childs.u_id v -> u = v.
Proof.
  induction l as [|w l IH]; simpl; [intros _ []|].
  intros Hn Hu Hv Hid. inversion Hn as [|? ? Hw Hl]; subst.
  destruct Hu as [<-|Hu], Hv as [<-|Hv]; try reflexivity.
  - exfalso. apply Hw. rewrite Hid. apply in_map, Hv.
  - exfalso. apply Hw. rewrite <- Hid. apply in_map, Hu.
  - apply IH; assumption.
Qed.

Lemma nodup_find (p : Childs.User -> bool) (l : Childs.Users) (x : Childs.User) :
  NoDup (map Childs.u_id l) -> In x l -> p x = true ->
  (forall u, p u = true -> Childs.u_id u = Childs.u_id x) ->
  find p l = Some x.
Proof.
  intros Hn Hx Hp Hid. destruct (find p l) as [y|] eqn:E.
  - apply find_some in E as [Hy Hpy]. f_equal.
    apply (nodup_same_id l); [exact Hn | exact Hy | exact Hx | apply Hid, Hpy].
  - exfalso. apply find_none with (x := x) in E; [congruence | exact Hx].
Qed.

(** With unique ids, updating the first document with a given id updates
    every document with that id. *)
Lemma update_first_map (p : Childs.User -> bool) (f : Childs.User -> Childs.User)
    (i : jsstr) (l : Childs.Users) :
  NoDup (map Childs.u_id l) -> (forall u, p u = true -> Childs.u_id u = i) ->
  Childs.update_first p f l = map (fun u => if p u then f u else u) l.
Proof.
  intros Hn Hp. induction l as [|u l IH]; simpl; [reflexivity|].
  inversion Hn as [|? ? Hu Hl]; subst.
  destruct (p u) eqn:E.
  - f_equal. rewrite <- (map_id l) at 1. apply map_ext_in. intros v Hv.
    destruct (p v) eqn:Ev; [|reflexivity].
    exfalso. apply Hu. rewrite (Hp u E), <- (Hp v Ev). apply in_map, Hv.
  - f_equal. apply IH, Hl.
Qed.

Lemma map_update_ids (p : Childs.User -> bool) (f : Childs.User -> Childs.User) (l : Childs.Users) :
  (forall u, Childs.u_id (f u) = Childs.u_id u) ->
  map Childs.u_id (map (fun u => if p u then f u else u) l) = map Childs.u_id l.
Proof.
  intros Hf. rewrite map_map. apply map_ext. intros u. destruct (p u); [apply Hf | reflexivity].
Qed.

Lemma has_id_eq (i : jsstr) (u : Childs.User) : Childs.has_id i u = true -> Childs.u_id u = i.
Proof. apply jsstr_eqb_eq. Qed.

Lemma live_id_eq (i : jsstr) (u : Childs.User) : Childs.live_id i u = true -> Childs.u_id u = i.
Proof. unfold Childs.live_id. intros H. apply andb_true_iff in H as [_ H]. apply has_id_eq, H. Qed.

Lemma u_id_if_childIds (b : bool) (u : Childs.User) (l : list jsstr) :
  Childs.u_id (if b then Childs.set_childIds u l else u) = Childs.u_id u.
Proof. destruct b; reflexivity. Qed.

Lemma u_id_if_teacherId (b : bool) (u : Childs.User) (t : option jsstr) :
  Childs.u_id (if b then Childs.set_teacherId u t else u) = Childs.u_id u.
Proof. destruct b; reflexivity. Qed.

(** A successful [insert]: the two updates of the store, as maps over the
    documents. *)
Lemma insert_success (userId code : jsstr) (users users' : Childs.Users) (status : Z) (msg : jsstr) :
  NoDup (map Childs.u_id users) ->
  Childs.insert 1 userId code users = (Childs.HttpOk status msg, users') ->
  exists teacher child,
    Childs.findOne_id_role userId 1 users = Some teacher /\
    Childs.findOne_code code users = Some child /\
    Childs.u_teacherId child = None /\
    users' = map (fun u => if Childs.has_id (Childs.u_id child) u
                           then Childs.set_teacherId u (Some (Childs.u_id teacher)) else u)
               (map (fun u => if Childs.has_id (Childs.u_id teacher) u
                              then Childs.set_childIds u (Childs.u_childIds u ++ [Childs.u_id child])
                              else u) users).
Proof.
  intros Hn H. unfold Childs.insert in H. simpl negb in H. cbv iota in H.
  destruct (Childs.findOne_id_role userId 1 users) as [teacher|] eqn:Ht; [|discriminate].
  destruct (js_falsy_str code); [discriminate|].
  destruct (Childs.findOne_code code users) as [child|] eqn:Hch; [|discriminate].
  destruct (Childs.u_teacherId child) as [t|] eqn:Hct;
    [destruct (jsstr_eqb t (Childs.u_id teacher)); discriminate|].
  inversion H; subst users'. clear H.
  exists teacher, child. split; [reflexivity|]. split; [reflexivity|]. split; [exact Hct|].
  rewrite (update_first_map _ _ (Childs.u_id teacher) users Hn (has_id_eq _)).
  apply (update_first_map _ _ (Childs.u_id child)); [|apply has_id_eq].
  rewrite map_update_ids; [exact Hn | reflexivity].
Qed.

(** X13: after a successful [insert] by a teacher, the same [insert] is refused with 400 Child has already been added by you and changes nothing. *)
Theorem insert_repeated_refused (userId code : jsstr) (users users' : Childs.Users)
    (status : Z) (msg : jsstr) :
  NoDup (map Childs.u_id users) ->
  Childs.insert 1 userId code users = (Childs.HttpOk status msg, users') ->
  Childs.insert 1 userId code users'
  = (Childs.HttpError 400 (js "Child has already been added by you"), users').
Proof.
  intros Hn H.
  assert (Hc : js_falsy_str code = false).
  { unfold Childs.insert in H. simpl negb in H. cbv iota in H.
    destruct (Childs.findOne_id_role userId 1 users); [|discriminate].
    destruct (js_falsy_str code); [discriminate | reflexivity]. }
  destruct (insert_success _ _ _ _ _ _ Hn H) as [teacher [child [Ht [Hch [Hct ->]]]]].
  unfold Childs.insert. simpl negb. cbv iota.
  unfold Childs.findOne_id_role, Childs.findOne_code in *.
  rewrite !find_map_preserving
    by (intros u; destruct (Childs.has_id _ u); reflexivity).
  rewrite Ht, Hc, Hch. simpl option_map. cbv iota.
  assert (Ec : Childs.has_id (Childs.u_id child)
                 (if Childs.has_id (Childs.u_id teacher) child
                  then Childs.set_childIds child (Childs.u_childIds child ++ [Childs.u_id child])
                  else child) = true)
    by (destruct (Childs.has_id (Childs.u_id teacher) child); apply jsstr_eqb_refl).
  rewrite Ec. simpl Childs.u_teacherId.
  rewrite u_id_if_teacherId, u_id_if_childIds.
  rewrite jsstr_eqb_refl. reflexivity.
Qed.

Lemma insert_repeated_refused_witness :
  let teacher := {| Childs.u_id := js "t1"; Childs.u_role := 1; Childs.u_code := None;
                    Childs.u_childIds := []; Childs.u_parentsId := None;
                    Childs.u_teacherId := None; Childs.u_deleted := false |} in
  let child := {| Childs.u_id := js "c1"; Childs.u_role := 3; Childs.u_code := Some (js "K7Q2M");
                  Childs.u_childIds := []; Childs.u_parentsId := Some (js "p1");
                  Childs.u_teacherId := None; Childs.u_deleted := false |} in
  let users' := snd (Childs.insert 1 (js "t1") (js "K7Q2M") [teacher; child]) in
  Childs.insert 1 (js "t1") (js "K7Q2M") users'
  = (Childs.HttpError 400 (js "Child has already been added by you"), users').
Proof.
  intros teacher child users'.
  apply (insert_repeated_refused (js "t1") (js "K7Q2M") [teacher; child] users' 201
           (js "Successfully added student")).
  - repeat constructor; simpl; intuition discriminate.
  - vm_compute. reflexivity.
Defined.

Section AnswerFacts.
Variables image_endpoint audio_endpoint : jsstr -> jsstr -> option AIResponse.

Lemma answers_loop_filter (questions : list Question) (answers : list SubmittedAnswer)
    (t : Q) (r : list AnswerRecord) :
  answers_loop image_endpoint audio_endpoint questions
    (filter (has_question questions) answers) t r
  = answers_loop image_endpoint audio_endpoint questions answers t r.
Proof.
  revert t r; induction answers as [|ans answers IH]; intros t r; [reflexivity|].
  cbn [filter]. unfold has_question at 1.
  destruct (find_question questions (sa_questionId ans)) as [q|] eqn:E.
  - cbn [answers_loop]. rewrite E.
    destruct (transcribe image_endpoint audio_endpoint ans q); [apply IH | reflexivity].
  - rewrite IH. cbn [answers_loop]. rewrite E. reflexivity.
Qed.
End AnswerFacts.

(** X15: [answer] gives the same result when the submitted answers naming no question of the quiz are removed. *)
Theorem answer_ignores_unmatched_answers
    (image_endpoint audio_endpoint : jsstr -> jsstr -> option AIResponse)
    (date_ok : jsstr -> bool) (ex : Exercise) (quizId : jsstr) (answers : list SubmittedAnswer) (pos : nat) (quiz : Quiz) :
  find_quiz quizId (ex_quiz ex) 0 = Some (pos, quiz) ->
  answer image_endpoint audio_endpoint date_ok (Some ex) quizId answers
  = answer image_endpoint audio_endpoint date_ok (Some ex) quizId
      (filter (has_question (quiz_questions quiz)) answers).
Proof.
  intros Hq. unfold answer. rewrite Hq. rewrite answers_loop_filter. reflexivity.
Qed.

Lemma answer_ignores_unmatched_answers_witness :
  let ex := exercise_of [quiz_of "z1" four_questions] in
  let subm := [submission "q1" "image/png"; submission "q9" "image/png"] in
  answer (endpoint_fixed 100) endpoint_down iso_date_time_format (Some ex) (js "z1") subm
  = answer (endpoint_fixed 100) endpoint_down iso_date_time_format (Some ex) (js "z1")
      (filter (has_question four_questions) subm).
Proof.
  intros ex subm.
  apply (answer_ignores_unmatched_answers _ _ _ ex (js "z1") subm 0 (quiz_of "z1" four_questions)).
  reflexivity.
Defined.

Lemma lead_digit_small_bound (p q : Z) (fuel : nat) :
  (0 <= p)%Z -> (0 < q)%Z -> (p < 10 * q)%Z -> (0 <= lead_digit_small p q fuel <= 9)%Z.
Proof.
  revert p; induction fuel as [|fuel IH]; intros p Hp Hq Hpq; cbn [lead_digit_small].
  - split; [apply Z.div_pos; lia|]. apply Z.lt_succ_r. apply Z.div_lt_upper_bound; lia.
  - destruct (p <? q)%Z eqn:E.
    + apply Z.ltb_lt in E. apply IH; lia.
    + split; [apply Z.div_pos; lia|]. apply Z.lt_succ_r. apply Z.div_lt_upper_bound; lia.
Qed.

(** [parseInt] of a number in [0, 100] is in [0, 100]. *)
Lemma parseInt_number_range (x : Q) :
  0 <= x <= 100 -> (0 <= parseInt_number x <= 100)%Z.
Proof.
  intros [H0 H100]. unfold parseInt_number.
  replace (Qle_bool 0 x) with true by (symmetry; apply Qle_bool_iff, H0).
  destruct x as [p d]. unfold Qle in H0, H100. cbn [Qnum Qden] in H0, H100.
  unfold parseInt_abs. cbn [Qnum Qden].
  destruct (p =? 0)%Z eqn:Ep; [lia|].
  destruct (Qle_bool (1 # 1000000) (p # d)) eqn:Es; cbv beta iota delta [negb].
  - destruct (Qle_bool (inject_Z (10 ^ 21)) (p # d)) eqn:El.
    + apply Qle_bool_iff in El. unfold Qle in El. cbn [Qnum Qden inject_Z] in El. lia.
    + split; [apply Z.div_pos; lia|]. apply Z.div_le_upper_bound; lia.
  - unfold Qle_bool in Es. cbn [Qnum Qden] in Es. apply Z.leb_gt in Es.
    assert (B : (0 <= lead_digit_small p (Z.pos d) (Z.to_nat (Z.log2 (Z.pos d) + 1)) <= 9)%Z)
      by (apply lead_digit_small_bound; lia).
    lia.
Qed.

Section QuizPointRange.
Variables image_endpoint audio_endpoint : jsstr -> jsstr -> option AIResponse.
Hypothesis image_range :
  forall p k r, image_endpoint p k = Some r -> 0 <= similarity_or_zero r <= 100.
Hypothesis audio_range :
  forall p k r, audio_endpoint p k = Some r -> 0 <= similarity_or_zero r <= 100.

Lemma transcribe_range (ans : SubmittedAnswer) (q : Question) (r : AIResponse) :
  transcribe image_endpoint audio_endpoint ans q = Ok r -> 0 <= similarity_or_zero r <= 100.
Proof.
  unfold transcribe, processImageToText, processAudioToText.
  destruct (starts_with _ (sa_fileType ans)).
  - destruct (image_endpoint _ _) as [d|] eqn:E; intros H; inversion H; subst.
    apply (image_range _ _ _ E).
  - destruct (starts_with _ (sa_fileType ans)).
    + destruct (audio_endpoint _ _) as [d|] eqn:E; intros H; inversion H; subst.
      apply (audio_range _ _ _ E).
    + intros H. inversion H; subst. split; discriminate.
Qed.

Lemma answers_loop_total_range (questions : list Question) (l : list SubmittedAnswer)
    (t t' : Q) (r r' : list AnswerRecord) :
  answers_loop image_endpoint audio_endpoint questions l t r = Ok (t', r') ->
  t <= t' /\ t' <= t + inject_Z (100 * Z.of_nat (length (filter (has_question questions) l))).
Proof.
  revert t r; induction l as [|ans l IH]; intros t r; cbn [answers_loop filter].
  - intros H. inversion H; subst. simpl. split; [apply Qle_refl|].
    rewrite Qplus_0_r. apply Qle_refl.
  - unfold has_question at 1.
    destruct (find_question questions (sa_questionId ans)) as [q|]; [|apply IH].
    destruct (transcribe image_endpoint audio_endpoint ans q) as [resp|m] eqn:E;
      [|discriminate].
    intros H. destruct (IH _ _ H) as [H1 H2].
    destruct (transcribe_range _ _ _ E) as [S1 S2].
    cbn [length]. rewrite Nat2Z.inj_succ, Z.mul_succ_r, inject_Z_plus in *.
    set (M := inject_Z (100 * Z.of_nat (length (filter (has_question questions) l)))) in *.
    set (s := similarity_or_zero resp) in *.
    split.
    + apply (Qle_trans _ (t + s)); [|exact H1].
      rewrite <- (Qplus_0_r t) at 1. apply Qplus_le_compat; [apply Qle_refl | exact S1].
    + apply (Qle_trans _ _ _ H2).
      rewrite <- Qplus_assoc. apply Qplus_le_compat; [apply Qle_refl|].
      rewrite Qplus_comm. apply Qplus_le_compat; [apply Qle_refl | exact S2].
Qed.
End QuizPointRange.

Lemma filter_has_question_ids_incl (questions : list Question) (answers : list SubmittedAnswer) :
  incl (map sa_questionId (filter (has_question questions) answers)) (map q_id questions).
Proof.
  intros id Hin. apply in_map_iff in Hin as [ans [<- Hin]].
  apply filter_In in Hin as [_ Hh]. unfold has_question, find_question in Hh.
  destruct (find _ questions) as [q|] eqn:E; [|discriminate].
  apply find_some in E as [Hq Heq]. apply jsstr_eqb_eq in Heq.
  rewrite <- Heq. apply in_map, Hq.
Qed.

(** X16: when every similarity of the AI server is in [0, 100] and the answered question ids are distinct, a successful [answer] stores a [quizPoint] in [0, 100]. *)
Theorem answer_quizPoint_in_range
    (image_endpoint audio_endpoint : jsstr -> jsstr -> option AIResponse)
    (date_ok : jsstr -> bool) (ex ex' : Exercise) (quizId : jsstr) (answers : list SubmittedAnswer)
    (pos : nat) (quiz : Quiz) :
  (forall p k r, image_endpoint p k = Some r -> 0 <= similarity_or_zero r <= 100) ->
  (forall p k r, audio_endpoint p k = Some r -> 0 <= similarity_or_zero r <= 100) ->
  find_quiz quizId (ex_quiz ex) 0 = Some (pos, quiz) ->
  NoDup (map sa_questionId (filter (has_question (quiz_questions quiz)) answers)) ->
  fst (answer image_endpoint audio_endpoint date_ok (Some ex) quizId answers) = RespOk ex' ->
  exists quiz' z, nth_error (ex_quiz ex') pos = Some quiz' /\
                  quiz_quizPoint quiz' = Some z /\ (0 <= z <= 100)%Z.
Proof.
  intros Hi Ha Hq Hnd. unfold answer. rewrite Hq.
  destruct (answers_loop _ _ _ _ _ _) as [[t rec]|m] eqn:Hl; [|discriminate].
  match goal with |- context [if exercise_valid date_ok ?e then _ else _] =>
    destruct (exercise_valid date_ok e) end; [|discriminate].
  cbn [fst]. intros H. inversion H; subst ex'; clear H.
  destruct (answers_loop_total_range _ _ Hi Ha _ _ _ _ _ _ Hl) as [H0 H1].
  rewrite Qplus_0_l in H1.
  set (m := length (filter (has_question (quiz_questions quiz)) answers)) in H1.
  set (qs := quiz_questions quiz) in *.
  assert (Hm : (m <= length qs)%nat).
  { pose proof (NoDup_incl_length Hnd (filter_has_question_ids_incl qs answers)) as L.
    rewrite !length_map in L. exact L. }
  apply find_quiz_nth in Hq as [_ Hn]. rewrite Nat.sub_0_r in Hn.
  exists (set_answers quiz rec (quiz_point qs t)), (quiz_point qs t).
  split; [|split; [reflexivity|]].
  - cbn [ex_quiz]. apply replace_at_same.
    apply nth_error_Some. rewrite Hn. discriminate.
  - unfold quiz_point. apply parseInt_number_range.
    destruct (0 <? length qs)%nat eqn:En.
    + apply Nat.ltb_lt in En.
      assert (Hpos : 0 < inject_Z (Z.of_nat (length qs))).
      { unfold Qlt. cbn [Qnum Qden inject_Z]. lia. }
      split.
      * apply Qle_shift_div_l; [exact Hpos|]. rewrite Qmult_0_l. exact H0.
      * apply Qle_shift_div_r; [exact Hpos|].
        apply (Qle_trans _ _ _ H1).
        unfold Qle, Qmult, inject_Z. cbn [Qnum Qden]. lia.
    + apply Nat.ltb_ge in En. assert (m = 0%nat) as Em by lia.
      rewrite Em in H1. split; [exact H0|].
      apply (Qle_trans _ _ _ H1). unfold Qle. cbn. lia.
Qed.

Lemma answer_quizPoint_in_range_witness :
  let ex := exercise_of [quiz_of "z1" four_questions] in
  let subm := [submission "q1" "image/png"; submission "q3" "image/png";
               submission "q9" "image/png"] in
  exists ex', fst (answer (endpoint_fixed 100) endpoint_down iso_date_time_format
                         (Some ex) (js "z1") subm)
              = RespOk ex' /\
  exists quiz' z, nth_error (ex_quiz ex') 0 = Some quiz' /\
                  quiz_quizPoint quiz' = Some z /\ (0 <= z <= 100)%Z.
Proof.
  intros ex subm.
  exists (match fst (answer (endpoint_fixed 100) endpoint_down iso_date_time_format
                       (Some ex) (js "z1") subm) with RespOk e => e | RespError _ _ => ex end).
  split; [vm_compute; reflexivity|].
  apply (answer_quizPoint_in_range (endpoint_fixed 100) endpoint_down iso_date_time_format
           ex _ (js "z1") subm
           0 (quiz_of "z1" four_questions)).
  - intros p k r E. inversion E; subst. unfold similarity_or_zero. cbn.
    split; unfold Qle; cbn; lia.
  - intros p k r E. discriminate.
  - reflexivity.
  - vm_compute. apply NoDup_cons; [intros [H|[]]; discriminate|].
    apply NoDup_cons; [intros []|apply NoDup_nil].
  - vm_compute. reflexivity.
Defined.
